(** * Proof-submission widget: validation, upload zone, media viewer, submit pipeline

    A shallow embedding of the TypeScript sources of the widget and the
    properties its specification states about them.

    Conventions of the embedding.
    - A JavaScript [number] that holds a pixel coordinate or a zoom factor is
      a rational [Q].  Every zoom factor the viewer can reach is a multiple
      of 1/4 between 1/4 and 3, which binary64 represents exactly, so
      [prev + 0.25], [prev - 0.25], [Math.min] and [Math.max] are exact on
      them; so is the difference of two whole-pixel coordinates.  The one
      quotient, pan over scale in the transform of the image, is kept as
      its two operands: the browser writes their binary64 quotient, which
      is not in general the exact one.  A byte count or an angle in degrees
      is an integer [Z].
    - A string is tested the way the code tests it, by truthiness: the
      empty string counts as absent, for the link of the form as for the
      error message of an upload.
    - An optional field ([x?: T], [T | undefined]) is an [option].
    - A React state cell is a record field; an event handler is a function
      from the state of the render it closes over to the next state.
    - [alert], the callbacks handed to a component and the calls to the
      hosted back end are recorded, in order, in a list of effects. *)

From Stdlib Require Import ZArith QArith Qminmax Lqa Bool List String Ascii Lia.
Import ListNotations.

Open Scope string_scope.
Open Scope list_scope.
Open Scope Z_scope.

(** ** JavaScript helpers *)

Module JS.

(** [s.startsWith(p)] *)
Definition startsWith (s p : string) : bool := String.prefix p s.

(** Truthiness of a [string | undefined]: [undefined] and the empty string
    are falsy. *)
Definition truthy (v : option string) : bool :=
  match v with
  | Some (String _ _) => true
  | Some EmptyString => false
  | None => false
  end.

(** Truthiness of an object reference or [null]/[undefined]. *)
Definition present {A : Type} (v : option A) : bool :=
  match v with
  | Some _ => true
  | None => false
  end.

(** [`${v}`] for a [string | undefined]. *)
Definition template (v : option string) : string :=
  match v with
  | Some s => s
  | None => "undefined"
  end.

(** A thrown value: an [Error] with its message, or anything else. *)
Inductive Thrown : Type :=
| ErrorObject (message : string)
| OtherValue.

(** How an awaited promise settles. *)
Inductive Settled (A : Type) : Type :=
| Fulfilled (v : A)
| Rejected (e : Thrown).

Arguments Fulfilled {A} v.
Arguments Rejected {A} e.

(** [a > b] and [a <= b] on numbers. *)
Definition Qleb (a b : Q) : bool := Qle_bool a b.
Definition Qgtb (a b : Q) : bool := negb (Qle_bool a b).

End JS.

(** ** components/media-viewer: zoom, rotate and pan state *)

Module MediaViewer.

Import JS.

Local Open Scope Q_scope.

Record Point : Type := mkPoint { x : Q; y : Q }.

(** The [useState] cells of [MediaViewer]. *)
Record ViewerState : Type := mkViewer {
  imageScale : Q;
  imageRotation : Z;
  panPosition : Point;
  isDragging : bool;
  dragStart : Point;
  isLoading : bool
}.

(** The values passed to [useState] on mount. *)
Definition initial : ViewerState :=
  {| imageScale := 1;
     imageRotation := 0%Z;
     panPosition := mkPoint 0 0;
     isDragging := false;
     dragStart := mkPoint 0 0;
     isLoading := true |}.

Definition setImageScale (v : Q) (s : ViewerState) : ViewerState :=
  mkViewer v (imageRotation s) (panPosition s) (isDragging s) (dragStart s) (isLoading s).

Definition setImageRotation (v : Z) (s : ViewerState) : ViewerState :=
  mkViewer (imageScale s) v (panPosition s) (isDragging s) (dragStart s) (isLoading s).

Definition setPanPosition (v : Point) (s : ViewerState) : ViewerState :=
  mkViewer (imageScale s) (imageRotation s) v (isDragging s) (dragStart s) (isLoading s).

Definition setIsDragging (v : bool) (s : ViewerState) : ViewerState :=
  mkViewer (imageScale s) (imageRotation s) (panPosition s) v (dragStart s) (isLoading s).

Definition setDragStart (v : Point) (s : ViewerState) : ViewerState :=
  mkViewer (imageScale s) (imageRotation s) (panPosition s) (isDragging s) v (isLoading s).

Definition setIsLoading (v : bool) (s : ViewerState) : ViewerState :=
  mkViewer (imageScale s) (imageRotation s) (panPosition s) (isDragging s) (dragStart s) v.

(** [Math.min(prev + 0.25, 3)] *)
Definition zoomInScale (prev : Q) : Q := Qmin (prev + (1#4)) 3.

(** [Math.max(prev - 0.25, 0.25)] *)
Definition zoomOutScale (prev : Q) : Q := Qmax (prev - (1#4)) (1#4).

Definition handleZoomIn (s : ViewerState) : ViewerState :=
  setImageScale (zoomInScale (imageScale s)) s.

Definition handleZoomOut (s : ViewerState) : ViewerState :=
  let newScale := zoomOutScale (imageScale s) in
  let s' := if Qleb newScale 1 then setPanPosition (mkPoint 0 0) s else s in
  setImageScale newScale s'.

(** [(prev + 90) % 360]; [%] is the truncating remainder. *)
Definition rotateBy90 (prev : Z) : Z := Z.rem (prev + 90) 360.

Definition handleRotate (s : ViewerState) : ViewerState :=
  setImageRotation (rotateBy90 (imageRotation s)) s.

Definition handleReset (s : ViewerState) : ViewerState :=
  setPanPosition (mkPoint 0 0) (setImageRotation 0%Z (setImageScale 1 s)).

Definition maxOffset : Q := 200.

(** [Math.max(-maxOffset, Math.min(maxOffset, v))] *)
Definition constrain (v : Q) : Q := Qmax (- maxOffset) (Qmin maxOffset v).

Section Handlers.

(** [fileType.startsWith "image/"], fixed by the props of the viewer. *)
Variable fileType : string.

Definition isImage : bool := startsWith fileType "image/".
Definition isVideo : bool := startsWith fileType "video/".

(** Mouse events carry [clientX] and [clientY]. *)
Definition handleMouseDown (e : Point) (s : ViewerState) : ViewerState :=
  if isImage && Qgtb (imageScale s) 1 then
    setDragStart (mkPoint (x e - x (panPosition s)) (y e - y (panPosition s)))
      (setIsDragging true s)
  else s.

Definition handleMouseMove (e : Point) (s : ViewerState) : ViewerState :=
  if isDragging s && Qgtb (imageScale s) 1 then
    let newX := x e - x (dragStart s) in
    let newY := y e - y (dragStart s) in
    setPanPosition (mkPoint (constrain newX) (constrain newY)) s
  else s.

Definition handleMouseUp (s : ViewerState) : ViewerState := setIsDragging false s.

Definition handleMouseLeave (s : ViewerState) : ViewerState := setIsDragging false s.

(** Touch events carry the list [e.touches]. *)
Definition handleTouchStart (touches : list Point) (s : ViewerState) : ViewerState :=
  if isImage && Qgtb (imageScale s) 1 && (List.length touches =? 1)%nat then
    match nth_error touches 0 with
    | Some touch =>
        setDragStart
          (mkPoint (x touch - x (panPosition s)) (y touch - y (panPosition s)))
          (setIsDragging true s)
    | None => s
    end
  else s.

Definition handleTouchMove (touches : list Point) (s : ViewerState) : ViewerState :=
  if isDragging s && Qgtb (imageScale s) 1 && (List.length touches =? 1)%nat then
    match nth_error touches 0 with
    | Some touch =>
        let newX := x touch - x (dragStart s) in
        let newY := y touch - y (dragStart s) in
        setPanPosition (mkPoint (constrain newX) (constrain newY)) s
    | None => s
    end
  else s.

Definition handleTouchEnd (s : ViewerState) : ViewerState := setIsDragging false s.

Definition resetImageControls (s : ViewerState) : ViewerState :=
  setIsLoading true
    (setIsDragging false
       (setPanPosition (mkPoint 0 0) (setImageRotation 0%Z (setImageScale 1 s)))).

(** [handleClose] also calls the [onClose] prop, which owns no viewer state. *)
Definition handleClose (s : ViewerState) : ViewerState := resetImageControls s.

(** [onLoad], [onError] and [onLoadedData] of the media element. *)
Definition handleMediaSettled (s : ViewerState) : ViewerState := setIsLoading false s.

(** Everything a user or the media element can make the viewer do. *)
Inductive Event : Type :=
| ZoomIn
| ZoomOut
| Rotate
| Reset
| MouseDown (e : Point)
| MouseMove (e : Point)
| MouseUp
| MouseLeave
| TouchStart (touches : list Point)
| TouchMove (touches : list Point)
| TouchEnd
| Close
| MediaSettled.

Definition step (s : ViewerState) (ev : Event) : ViewerState :=
  match ev with
  | ZoomIn => handleZoomIn s
  | ZoomOut => handleZoomOut s
  | Rotate => handleRotate s
  | Reset => handleReset s
  | MouseDown e => handleMouseDown e s
  | MouseMove e => handleMouseMove e s
  | MouseUp => handleMouseUp s
  | MouseLeave => handleMouseLeave s
  | TouchStart ts => handleTouchStart ts s
  | TouchMove ts => handleTouchMove ts s
  | TouchEnd => handleTouchEnd s
  | Close => handleClose s
  | MediaSettled => handleMediaSettled s
  end.

(** The state after a sequence of events, oldest first. *)
Definition run (evs : list Event) (s : ViewerState) : ViewerState :=
  fold_left step evs s.

(** A state the viewer can be in: some sequence of events leads to it from
    the mounted state. *)
Definition reachable (s : ViewerState) : Prop :=
  exists evs : list Event, s = run evs initial.

End Handlers.

(** A division [a / b] of the source, by its two operands.  The number the
    browser computes is the binary64 quotient of the two. *)
Record Quotient : Type := over { dividend : Q; divisor : Q }.

(** The [style.transform] of the [<img>], function by function, left to
    right as the template literal writes them. *)
Inductive TransformFn : Type :=
| scale (factor : Q)
| rotate (deg : Z)
| translate (tx ty : Quotient).

Definition imgTransform (s : ViewerState) : list TransformFn :=
  [ scale (imageScale s);
    rotate (imageRotation s);
    translate (over (x (panPosition s)) (imageScale s))
              (over (y (panPosition s)) (imageScale s)) ].

(** [n] applications of a handler. *)
Fixpoint times (n : nat) (h : ViewerState -> ViewerState) (s : ViewerState) : ViewerState :=
  match n with
  | O => s
  | S k => h (times k h s)
  end.

(** Both pan components within [-200, 200]. *)
Definition panInBounds (s : ViewerState) : Prop :=
  - (200) <= x (panPosition s) <= 200 /\ - (200) <= y (panPosition s) <= 200.

Definition scaleInBounds (s : ViewerState) : Prop :=
  (1#4) <= imageScale s <= 3.

Definition rotationQuarter (s : ViewerState) : Prop :=
  In (imageRotation s) [0; 90; 180; 270]%Z.

(** The three bounds the viewer keeps. *)
Definition invariant (s : ViewerState) : Prop :=
  scaleInBounds s /\ panInBounds s /\ rotationQuarter s.

End MediaViewer.

(** ** lib/validation: the zod schema of the form *)

Module Validation.

Import JS.

(** What the schema reads of a DOM [File]. *)
Record File : Type := mkFile {
  name : string;
  type : string;
  size : Z
}.

(** [AddProofFormData], the value the schema parses. *)
Record AddProofFormData : Type := mkData {
  proofLink : option string;
  file : option File
}.

Record ZodIssue : Type := mkIssue {
  message : string;
  path : list string
}.

(** A schema maps a value to the issues it raises; the parse succeeds when
    there are none. *)
Definition Schema (A : Type) : Type := A -> list ZodIssue.

(** [inner.refine(check, issue)]: the refinement runs on the value the
    inner schema produced and adds its issue when [check] is falsy.  The
    issues of an earlier refinement do not stop a later one. *)
Definition refine {A : Type} (inner : Schema A) (check : A -> bool)
  (issue : A -> ZodIssue) : Schema A :=
  fun data => inner data ++ (if check data then [] else [issue data]).

Definition oneMB : Z := 1 * 1024 * 1024.
Definition fiveMB : Z := 5 * 1024 * 1024.

Section Schema.

(** [z.string().url().safeParse(val).success] *)
Variable isUrl : string -> bool.

(** The refinement of the [proofLink] field. *)
Definition proofLinkCheck (val : option string) : bool :=
  negb (truthy val) ||
  match val with
  | Some v => isUrl v
  | None => false
  end.

Definition proofLinkIssue : ZodIssue :=
  mkIssue "Please enter a valid URL format (e.g., https://example.com)" ["proofLink"].

(** [z.object({ proofLink: ..., file: ... })]: the [file] field accepts any
    [File] or [undefined], so only [proofLink] can raise an issue. *)
Definition objectSchema : Schema AddProofFormData :=
  fun data => if proofLinkCheck (proofLink data) then [] else [proofLinkIssue].

(** [data.proofLink || data.file] *)
Definition linkOrFileCheck (data : AddProofFormData) : bool :=
  truthy (proofLink data) || present (file data).

Definition linkOrFileIssue : ZodIssue :=
  mkIssue "Please provide either a proof link or upload a file" ["root"].

(** The predicate of the last refinement. *)
Definition fileCheck (data : AddProofFormData) : bool :=
  match file data with
  | None => true
  | Some f =>
      let isImage := startsWith (type f) "image/" in
      let isVideo := startsWith (type f) "video/" in
      if negb isImage && negb isVideo then false
      else
        let maxSize := if isImage then oneMB else fiveMB in
        size f <=? maxSize
  end.

(** The issue of the last refinement. *)
Definition fileIssue (data : AddProofFormData) : ZodIssue :=
  match file data with
  | None => mkIssue "" ["file"]
  | Some f =>
      let isImage := startsWith (type f) "image/" in
      let isVideo := startsWith (type f) "video/" in
      if negb isImage && negb isVideo then
        mkIssue "File must be an image or video" ["file"]
      else
        let maxSize := if isImage then oneMB else fiveMB in
        if size f >? maxSize then
          mkIssue ("File size must be less than " ++ (if isImage then "1MB" else "5MB"))%string
            ["file"]
        else mkIssue "" ["file"]
  end.

Definition addProofSchema : Schema AddProofFormData :=
  refine
    (refine objectSchema linkOrFileCheck (fun _ => linkOrFileIssue))
    fileCheck fileIssue.

End Schema.

(** The four kinds of validation failure, and the kind each message of the
    schema stands for. *)
Inductive ValidationError : Type :=
| MissingInput
| InvalidUrl
| UnsupportedFileType
| FileTooLarge.

Definition errorKind (i : ZodIssue) : option ValidationError :=
  if String.eqb (message i) "Please provide either a proof link or upload a file"
  then Some MissingInput
  else if String.eqb (message i) "Please enter a valid URL format (e.g., https://example.com)"
  then Some InvalidUrl
  else if String.eqb (message i) "File must be an image or video"
  then Some UnsupportedFileType
  else if String.eqb (message i) "File size must be less than 1MB"
          || String.eqb (message i) "File size must be less than 5MB"
  then Some FileTooLarge
  else None.

Fixpoint errorKinds (issues : list ZodIssue) : list ValidationError :=
  match issues with
  | [] => []
  | i :: rest =>
      match errorKind i with
      | Some k => k :: errorKinds rest
      | None => errorKinds rest
      end
  end.

(** Validation of a form value: the kinds of the issues the schema raises. *)
Definition validate (isUrl : string -> bool) (data : AddProofFormData)
  : list ValidationError :=
  errorKinds (addProofSchema isUrl data).

(** Validation yields the failure [k]. *)
Definition yields (isUrl : string -> bool) (data : AddProofFormData)
  (k : ValidationError) : Prop :=
  In k (validate isUrl data).

Definition isImageFile (f : File) : bool := startsWith (type f) "image/".
Definition isVideoFile (f : File) : bool := startsWith (type f) "video/".

(** The outcome of the last refinement on a file, as a kind of failure:
    a summary of [fileCheck] and [fileIssue] used in the proofs. *)
Definition fileFailure (f : File) : option ValidationError :=
  if negb (isImageFile f) && negb (isVideoFile f) then Some UnsupportedFileType
  else if size f >? (if isImageFile f then oneMB else fiveMB) then Some FileTooLarge
  else None.

End Validation.

(** ** components/file-upload-zone: acquiring one candidate file *)

Module FileUploadZone.

Import JS.
Import Validation.

(** The item of a native file drop. *)
Record DropResult : Type := mkDrop { files : list File }.

(** What a handler of the zone does to the outside: an [alert] box, or a
    call of the [onFileChange] prop. *)
Inductive ZoneEffect : Type :=
| alert (msg : string)
| onFileChange (file : option File).

Definition handleFileDrop (item : DropResult) : list ZoneEffect :=
  if (0 <? List.length (files item))%nat then
    match nth_error (files item) 0 with
    | Some file =>
        let isImage := startsWith (type file) "image/" in
        let isVideo := startsWith (type file) "video/" in
        if negb isImage && negb isVideo then
          [alert "Please upload only image or video files"]
        else
          let maxSize := if isImage then 1 * 1024 * 1024 else 5 * 1024 * 1024 in
          if size file >? maxSize then
            [alert ("File size must be less than " ++ (if isImage then "1MB" else "5MB"))%string]
          else [onFileChange (Some file)]
    | None => []
    end
  else [].

(** The [canDrop] of the drop target. *)
Definition canDrop (item : DropResult) : bool :=
  if (List.length (files item) =? 0)%nat then false
  else
    match nth_error (files item) 0 with
    | Some file =>
        let isImage := startsWith (type file) "image/" in
        let isVideo := startsWith (type file) "video/" in
        isImage || isVideo
    | None => false
    end.

(** A drop on the target: the drag-and-drop library calls the [drop]
    handler only for an item that [canDrop] admits. *)
Definition drop (item : DropResult) : list ZoneEffect :=
  if canDrop item then handleFileDrop item else [].




End FileUploadZone.

(** ** lib/supabase-actions: the record insert, a server action *)

Module SupabaseActions.

Import JS.

Record ProofSubmission : Type := mkProofSubmission {
  proofLink : option string;
  fileName : option string;
  fileUrl : option string;
  fileSize : option Z;
  fileType : option string
}.

(** The object handed to [.insert([...])] on the [proofs] table. *)
Record ProofRow : Type := mkProofRow {
  proof_link : option string;
  file_name : option string;
  file_url : option string;
  file_size : option Z;
  file_type : option string;
  created_at : string;
  status : string
}.

Record InsertResult : Type := mkInsertResult {
  success : bool;
  error : option string;
  id : option Z
}.

(** What the awaited query yields: [data] holds the selected [id] of the
    single row, or is [null]; [error] holds a message, or is [null]. *)
Record QueryResponse : Type := mkQueryResponse {
  data : option Z;
  queryError : option string
}.

Section ServerAction.

(** [new Date().toISOString()], read where the action runs. *)
Variable serverNow : string.

(** The hosted database: what the insert of a row answers. *)
Variable runInsert : ProofRow -> Settled QueryResponse.

Definition insertedRow (proofData : ProofSubmission) : ProofRow :=
  {| proof_link := proofLink proofData;
     file_name := fileName proofData;
     file_url := fileUrl proofData;
     file_size := fileSize proofData;
     file_type := fileType proofData;
     created_at := serverNow;
     status := "pending" |}.

Definition insertProofRecord (proofData : ProofSubmission) : InsertResult :=
  match runInsert (insertedRow proofData) with
  | Fulfilled response =>
      match queryError response with
      | Some message => mkInsertResult false (Some message) None
      | None =>
          match data response with
          | Some rowId => mkInsertResult true None (Some rowId)
          | None =>
              (* [data.id] on [null] throws, and the [catch] answers *)
              mkInsertResult false (Some "Failed to save proof record") None
          end
      end
  | Rejected _ => mkInsertResult false (Some "Failed to save proof record") None
  end.

End ServerAction.

End SupabaseActions.

(** ** lib/supabase-client: the file upload *)

Module SupabaseClient.

Import JS.

(** The answer of the storage-upload collaborator. *)
Record UploadResult : Type := mkUploadResult {
  url : string;
  error : option string
}.

Section Upload.

(** [`proofs/${Date.now()}-${Math.random().toString(36).substring(2)}.${fileExt}`]:
    the clock and the random source are outside the model. *)
Variable filePath : Validation.File -> string.

(** [supabase.storage.from("proof-files").upload(filePath, file, ...)]:
    the message of the [error] it answers with, or [null]. *)
Variable storageUpload : string -> Validation.File -> Settled (option string).

(** [getPublicUrl(filePath)] *)
Variable getPublicUrl : string -> string.

Definition uploadFileToSupabase (file : Validation.File) : Settled UploadResult :=
  Fulfilled
    match storageUpload (filePath file) file with
    | Fulfilled (Some message) => mkUploadResult "" (Some message)
    | Fulfilled None => mkUploadResult (getPublicUrl (filePath file)) None
    | Rejected _ => mkUploadResult "" (Some "Failed to upload file")
    end.

End Upload.

End SupabaseClient.

(** ** The form component: state, field handlers and the submit pipeline *)

Module SubmissionForm.

Import JS.
Import SupabaseClient.

Record SubmissionResult : Type := mkSubmissionResult {
  id : option Z;
  proofLink : option string;
  fileName : option string;
  fileUrl : option string;
  fileSize : option Z;
  fileType : option string;
  submittedAt : string;
  status : string
}.

(** The state cells of the component and the values of its form. *)
Record Component : Type := mkComponent {
  isOpen : bool;
  submissionResult : option SubmissionResult;
  isSubmitting : bool;
  showMediaViewer : bool;
  values : Validation.AddProofFormData
}.

(** What the pipeline does to the outside, in order. *)
Inductive Effect : Type :=
| CallUpload (file : Validation.File)
| CallInsert (proofData : SupabaseActions.ProofSubmission)
| Alert (msg : string).

Record World : Type := mkWorld {
  component : Component;
  log : list Effect
}.

(** How a block of statements ends: it falls through with a value, it
    executes [return], or it throws. *)
Inductive Completion (A : Type) : Type :=
| Normal (a : A)
| Return
| Throw (e : Thrown).

Arguments Normal {A} a.
Arguments Return {A}.
Arguments Throw {A} e.

(** A block of the async function: it reads and updates the world and
    completes. *)
Definition Async (A : Type) : Type := World -> Completion A * World.

Definition ret {A : Type} (a : A) : Async A := fun w => (Normal a, w).

Definition bind {A B : Type} (m : Async A) (k : A -> Async B) : Async B :=
  fun w =>
    match m w with
    | (Normal a, w') => k a w'
    | (Return, w') => (Return, w')
    | (Throw e, w') => (Throw e, w')
    end.

Declare Scope async_scope.
Delimit Scope async_scope with async.

Notation "x <- m ;; k" := (bind m (fun x => k))
  (at level 61, m at next level, right associativity) : async_scope.
Notation "m ;; k" := (bind m (fun _ => k))
  (at level 61, right associativity) : async_scope.

Local Open Scope async_scope.

(** [return] inside the function body. *)
Definition returnNow {A : Type} : Async A := fun w => (Return, w).

Definition emit (e : Effect) : Async unit :=
  fun w => (Normal tt, mkWorld (component w) (log w ++ [e])).

Definition update (f : Component -> Component) : Async unit :=
  fun w => (Normal tt, mkWorld (f (component w)) (log w)).

(** [await collaborator(arg)]: the call is made, then the promise settles. *)
Definition await {A : Type} (call : Effect) (settled : Settled A) : Async A :=
  fun w =>
    let w' := mkWorld (component w) (log w ++ [call]) in
    match settled with
    | Fulfilled v => (Normal v, w')
    | Rejected e => (Throw e, w')
    end.

(** [if (c) { body }] *)
Definition when (c : bool) (body : Async unit) : Async unit :=
  if c then body else ret tt.

(** [try { body } catch (error) { handler } finally { finalizer }] *)
Definition tryCatchFinally {A : Type} (body : Async A) (handler : Thrown -> Async A)
  (finalizer : Async unit) : Async A :=
  fun w =>
    let (c1, w1) := body w in
    let (c2, w2) :=
      match c1 with
      | Throw e => handler e w1
      | _ => (c1, w1)
      end in
    match finalizer w2 with
    | (Normal _, w3) => (c2, w3)
    | (Return, w3) => (Return, w3)
    | (Throw e, w3) => (Throw e, w3)
    end.

Definition alert (msg : string) : Async unit := emit (Alert msg).

Definition setIsSubmitting (v : bool) : Async unit :=
  update (fun c =>
    mkComponent (isOpen c) (submissionResult c) v (showMediaViewer c) (values c)).

Definition setSubmissionResult (v : option SubmissionResult) : Async unit :=
  update (fun c =>
    mkComponent (isOpen c) v (isSubmitting c) (showMediaViewer c) (values c)).

(** [reset()] of the form: no default values were given. *)
Definition reset : Async unit :=
  update (fun c =>
    mkComponent (isOpen c) (submissionResult c) (isSubmitting c) (showMediaViewer c)
      (Validation.mkData None None)).


(** [setValue("proofLink", value, { shouldValidate: true })] in
    [handleLinkChange]. *)
Definition handleLinkChange (value : string) (c : Component) : Component :=
  mkComponent (isOpen c) (submissionResult c) (isSubmitting c) (showMediaViewer c)
    (Validation.mkData (Some value) (Validation.file (values c))).




(** [error instanceof Error ? error.message : "Unknown error"] *)
Definition errorText (thrown : Thrown) : string :=
  match thrown with
  | ErrorObject message => message
  | OtherValue => "Unknown error"
  end.

Section Submit.

(** The two collaborators, as the promises they return settle. *)
Variable uploadFileToSupabase : Validation.File -> Settled UploadResult.
Variable insertProofRecord : SupabaseActions.ProofSubmission -> Settled SupabaseActions.InsertResult.

(** [new Date().toISOString()], read in the browser. *)
Variable clientNow : string.

(** The [console] calls of the source have no effect on the page and are
    left out.  The two [let] variables [fileUrl] and [uploadError] are the
    pair the upload block returns. *)
Definition onSubmit (data : Validation.AddProofFormData) : Async unit :=
  setIsSubmitting true ;;
  tryCatchFinally
    ( uploaded <-
        match Validation.file data with
        | Some file =>
            uploadResult <- await (CallUpload file) (uploadFileToSupabase file) ;;
            if truthy (error uploadResult)
            then ret (None, error uploadResult)
            else ret (Some (url uploadResult), None)
        | None => ret (None, None)
        end ;;
      let fileUrl : option string := fst uploaded in
      let uploadError : option string := snd uploaded in
      when (truthy uploadError)
        ( alert ("File upload failed: " ++ template uploadError)%string ;;
          returnNow ) ;;
      let proofData :=
        {| SupabaseActions.proofLink := Validation.proofLink data;
           SupabaseActions.fileName := option_map Validation.name (Validation.file data);
           SupabaseActions.fileUrl := fileUrl;
           SupabaseActions.fileSize := option_map Validation.size (Validation.file data);
           SupabaseActions.fileType := option_map Validation.type (Validation.file data) |} in
      dbResult <- await (CallInsert proofData) (insertProofRecord proofData) ;;
      when (negb (SupabaseActions.success dbResult))
        ( alert ("Database error: " ++ template (SupabaseActions.error dbResult))%string ;;
          returnNow ) ;;
      let result :=
        {| id := SupabaseActions.id dbResult;
           proofLink := Validation.proofLink data;
           fileName := option_map Validation.name (Validation.file data);
           fileUrl := fileUrl;
           fileSize := option_map Validation.size (Validation.file data);
           fileType := option_map Validation.type (Validation.file data);
           submittedAt := clientNow;
           status := "pending" |} in
      setSubmissionResult (Some result) ;;
      reset )
    (fun thrown => alert ("Submission failed: " ++ errorText thrown)%string)
    (setIsSubmitting false).

(** One submission, started with an empty log: what was done to the
    outside, and the component afterwards. *)
Definition submit (data : Validation.AddProofFormData) (c : Component)
  : list Effect * Component :=
  let w := snd (onSubmit data (mkWorld c [])) in
  (log w, component w).

End Submit.

(** The pipeline with the server action of [lib/supabase-actions] as its
    insert collaborator; the call itself may still be rejected by the
    transport. *)
Definition insertViaServerAction (serverNow : string)
  (runInsert : SupabaseActions.ProofRow -> Settled SupabaseActions.QueryResponse)
  (proofData : SupabaseActions.ProofSubmission)
  : Settled SupabaseActions.InsertResult :=
  Fulfilled (SupabaseActions.insertProofRecord serverNow runInsert proofData).

(** A database that refuses every row and answers, as its error message,
    what [observe] reads off the row it was handed. *)
Definition reportingDatabase (observe : SupabaseActions.ProofRow -> string)
  (row : SupabaseActions.ProofRow) : Settled SupabaseActions.QueryResponse :=
  Fulfilled (SupabaseActions.mkQueryResponse None (Some (observe row))).

End SubmissionForm.

(** ** components/media-viewer: what the controls show *)

Module MediaViewerControls.

Import JS.
Import MediaViewer.

Local Open Scope Q_scope.

(** [disabled={imageScale <= 0.25}] of the zoom-out button. *)
Definition zoomOutDisabled (s : ViewerState) : bool := Qleb (imageScale s) (1#4).

(** [disabled={imageScale >= 3}] of the zoom-in button. *)
Definition zoomInDisabled (s : ViewerState) : bool := Qleb 3 (imageScale s).

Definition getCursorStyle (fileType : string) (s : ViewerState) : string :=
  if negb (isImage fileType) then "default"
  else if isDragging s then "grabbing"
  else if Qgtb (imageScale s) 1 then "grab"
  else "default".

(** The mouse event that stands for a one-finger touch event. *)
Definition asMouse (ev : Event) : Event :=
  match ev with
  | TouchStart [touch] => MouseDown touch
  | TouchMove [touch] => MouseMove touch
  | TouchEnd => MouseUp
  | _ => ev
  end.

(** Quarter turns since the view was last reset: a rotation adds one, a
    reset or a close starts again from none. *)
Definition countTurn (n : nat) (ev : Event) : nat :=
  match ev with
  | Rotate => S n
  | Reset | Close => O
  | _ => n
  end.

Definition quarterTurns (evs : list Event) : nat := fold_left countTurn evs O.

(** Two states that render alike: every cell but the drag anchor agrees. *)
Definition sameView (a b : ViewerState) : Prop :=
  imageScale a = imageScale b /\
  imageRotation a = imageRotation b /\
  panPosition a = panPosition b /\
  isDragging a = isDragging b /\
  isLoading a = isLoading b.

(** The scale is a whole number of quarters between 1/4 and 3. *)
Definition quarterScale (s : ViewerState) : Prop :=
  exists k : Z, (1 <= k <= 12)%Z /\ imageScale s == k # 4.

(** The offset is at the origin whenever the image is not zoomed in. *)
Definition restsAtOrigin (s : ViewerState) : Prop :=
  imageScale s <= 1 -> panPosition s = mkPoint 0 0.

(** A length in whole pixels: an integer, and small enough for the sums
    and differences the handlers take of such lengths to be exact in the
    browser. *)
Definition wholePixels (q : Q) : Prop :=
  exists n : Z, (Z.abs n <= 1073741824)%Z /\ q == inject_Z n.

Definition onPixelGrid (p : Point) : Prop :=
  wholePixels (x p) /\ wholePixels (y p).

(** Equal as far as a later event can tell: alike to the eye, and with the
    same drag anchor while a drag is on. *)
Definition alike (a b : ViewerState) : Prop :=
  sameView a b /\ (isDragging a = true -> dragStart a = dragStart b).

End MediaViewerControls.

(** ** lib/validation: the stand-alone file schema *)

Module FileSchema.

Import JS.
Import Validation.

(** The predicate of the first refinement of [fileSchema]. *)
Definition typeCheck (file : File) : bool :=
  let isImage := startsWith (type file) "image/" in
  let isVideo := startsWith (type file) "video/" in
  isImage || isVideo.

(** The predicate and the issue of its second refinement. *)
Definition sizeCheck (file : File) : bool :=
  let isImage := startsWith (type file) "image/" in
  let maxSize := if isImage then oneMB else fiveMB in
  size file <=? maxSize.

(** The second argument of this [refine] is a function that returns a bare
    string.  The library reads a message off an object only ([message] and
    [path] fields), so the string built here is dropped and the issue
    carries the default message of a custom issue. *)
Definition sizeIssue (file : File) : ZodIssue :=
  mkIssue "Invalid input" [].

(** [z.instanceof(File).refine(...).refine(...)], on a [File]. *)
Definition fileSchema : Schema File :=
  refine
    (refine (fun _ => []) typeCheck (fun _ => mkIssue "File must be an image or video" []))
    sizeCheck sizeIssue.

End FileSchema.

(** ** The form component: what it renders *)

(** The props the form passes to [MediaViewer]. *)
Module MediaViewerProps.

Record t : Type := make {
  isOpen : bool;
  fileUrl : string;
  fileName : string;
  fileType : string;
  fileSize : option Z
}.

End MediaViewerProps.

Module SubmissionFormView.

Import JS.
Import SubmissionForm.

(** [v || fallback] on a [string | undefined]. *)
Definition orElse (v : option string) (fallback : string) : string :=
  match v with
  | Some (String c rest) => String c rest
  | _ => fallback
  end.

(** [{submissionResult && submissionResult.fileUrl && (<MediaViewer ... />)}] *)
Definition mediaViewer (c : Component) : option MediaViewerProps.t :=
  match submissionResult c with
  | Some result =>
      match fileUrl result with
      | Some (String a rest) =>
          Some (MediaViewerProps.make
                  (showMediaViewer c)
                  (String a rest)
                  (orElse (fileName result) "Unknown file")
                  (orElse (fileType result) "application/octet-stream")
                  (fileSize result))
      | _ => None
      end
  | None => None
  end.

(** Whether the success view shows the View File button:
    [submissionResult.fileName && (... submissionResult.fileUrl && ...)]. *)
Definition viewFileShown (result : SubmissionResult) : bool :=
  truthy (fileName result) && truthy (fileUrl result).

Definition isAlert (e : Effect) : bool :=
  match e with
  | Alert _ => true
  | _ => false
  end.

Definition isUploadCall (e : Effect) : bool :=
  match e with
  | CallUpload _ => true
  | _ => false
  end.

Definition isInsertCall (e : Effect) : bool :=
  match e with
  | CallInsert _ => true
  | _ => false
  end.

End SubmissionFormView.

(** ** Sample files, collaborators and states used in the examples *)

Module Scenario.

Import JS.

Definition photo : Validation.File := Validation.mkFile "photo.png" "image/png" 204800.

Definition bigPhoto : Validation.File := Validation.mkFile "big.png" "image/png" 2097152.

Definition closedForm : SubmissionForm.Component :=
  SubmissionForm.mkComponent true None false false
    (Validation.mkData (Some "https://example.com/x") (Some photo)).

Definition uploadOk (f : Validation.File) : Settled SupabaseClient.UploadResult :=
  Fulfilled (SupabaseClient.mkUploadResult "https://cdn.example.com/proofs/1.png" None).

Definition uploadQuota (f : Validation.File) : Settled SupabaseClient.UploadResult :=
  Fulfilled (SupabaseClient.mkUploadResult "" (Some "quota exceeded")).

Definition uploadOffline (f : Validation.File) : Settled SupabaseClient.UploadResult :=
  Rejected (ErrorObject "network down").

(** The storage service answering an error whose message is the empty
    string. *)
Definition storageEmptyError (path : string) (f : Validation.File)
  : Settled (option string) :=
  Fulfilled (Some "").

Definition insertOk (p : SupabaseActions.ProofSubmission)
  : Settled SupabaseActions.InsertResult :=
  Fulfilled (SupabaseActions.mkInsertResult true None (Some 42)).

Definition insertDenied (p : SupabaseActions.ProofSubmission)
  : Settled SupabaseActions.InsertResult :=
  Fulfilled (SupabaseActions.mkInsertResult false (Some "permission denied") None).

Definition insertOffline (p : SupabaseActions.ProofSubmission)
  : Settled SupabaseActions.InsertResult :=
  Rejected OtherValue.

Definition databaseOk (row : SupabaseActions.ProofRow)
  : Settled SupabaseActions.QueryResponse :=
  Fulfilled (SupabaseActions.mkQueryResponse (Some 42) None).

End Scenario.

(** * Properties *)

(** ** The media viewer *)

Module MediaViewerFacts.

Import JS.
Import MediaViewer.

Local Open Scope Q_scope.

Lemma constrain_bounds (v : Q) : - (200) <= constrain v <= 200.
Proof.
  unfold constrain, maxOffset. split.
  - apply Q.le_max_l.
  - apply Q.max_lub; [lra | apply Q.le_min_l].
Qed.

Lemma constrain_inside (v : Q) : - (200) <= v <= 200 -> constrain v == v.
Proof.
  intros [Hlo Hhi]. unfold constrain, maxOffset.
  rewrite (Q.min_r 200 v) by exact Hhi.
  apply Q.max_r. exact Hlo.
Qed.

Lemma constrain_above (v : Q) : 200 <= v -> constrain v == 200.
Proof.
  intros H. unfold constrain, maxOffset.
  rewrite (Q.min_l 200 v) by exact H.
  apply Q.max_r. lra.
Qed.

Lemma constrain_below (v : Q) : v <= - (200) -> constrain v == - (200).
Proof.
  intros H. unfold constrain, maxOffset.
  apply Q.max_l. apply Q.min_le_iff. right. exact H.
Qed.

Lemma zoomInScale_bounds (q : Q) : (1#4) <= q <= 3 -> (1#4) <= zoomInScale q <= 3.
Proof.
  intros [Hlo Hhi]. unfold zoomInScale. split.
  - apply Q.min_glb; lra.
  - apply Q.le_min_r.
Qed.

Lemma zoomOutScale_bounds (q : Q) : (1#4) <= q <= 3 -> (1#4) <= zoomOutScale q <= 3.
Proof.
  intros [Hlo Hhi]. unfold zoomOutScale. split.
  - apply Q.le_max_r.
  - apply Q.max_lub; lra.
Qed.

Lemma zoomInScale_at_top (q : Q) : q == 3 -> zoomInScale q == 3.
Proof.
  intros H. unfold zoomInScale. apply Q.min_r. lra.
Qed.

Lemma zoomOutScale_at_bottom (q : Q) : q == (1#4) -> zoomOutScale q == (1#4).
Proof.
  intros H. unfold zoomOutScale. apply Q.max_r. lra.
Qed.

Lemma rotateBy90_quarter (r : Z) :
  In r [0; 90; 180; 270]%Z -> In (rotateBy90 r) [0; 90; 180; 270]%Z.
Proof.
  simpl. intros [H | [H | [H | [H | []]]]]; subst r; vm_compute; tauto.
Qed.

Lemma rotateBy90_four (r : Z) :
  In r [0; 90; 180; 270]%Z -> rotateBy90 (rotateBy90 (rotateBy90 (rotateBy90 r))) = r.
Proof.
  simpl. intros [H | [H | [H | [H | []]]]]; subst r; reflexivity.
Qed.

Lemma initial_invariant : invariant initial.
Proof.
  unfold invariant, scaleInBounds, panInBounds, rotationQuarter; simpl.
  repeat split; try lra. now left.
Qed.

Ltac split_invariant :=
  unfold invariant, scaleInBounds, panInBounds, rotationQuarter in *; simpl in *.

Lemma handleZoomIn_invariant (s : ViewerState) : invariant s -> invariant (handleZoomIn s).
Proof.
  intros (Hs & Hp & Hr). split_invariant.
  repeat split; try tauto; apply zoomInScale_bounds; exact Hs.
Qed.

Lemma handleZoomOut_invariant (s : ViewerState) : invariant s -> invariant (handleZoomOut s).
Proof.
  intros (Hs & Hp & Hr). unfold handleZoomOut.
  destruct (Qleb (zoomOutScale (imageScale s)) 1); split_invariant;
    repeat split; try tauto; try lra; apply zoomOutScale_bounds; exact Hs.
Qed.

Lemma handleRotate_invariant (s : ViewerState) : invariant s -> invariant (handleRotate s).
Proof.
  intros (Hs & Hp & Hr). split_invariant.
  repeat split; try tauto. apply rotateBy90_quarter. exact Hr.
Qed.

Lemma moved_invariant (s : ViewerState) (a b : Q) :
  invariant s -> invariant (setPanPosition (mkPoint (constrain a) (constrain b)) s).
Proof.
  intros (Hs & Hp & Hr). split_invariant.
  repeat split; try tauto; apply constrain_bounds.
Qed.

Lemma anchored_invariant (s : ViewerState) (p : Point) :
  invariant s -> invariant (setDragStart p (setIsDragging true s)).
Proof. intros H. exact H. Qed.

Lemma step_invariant (fileType : string) (s : ViewerState) (ev : Event) :
  invariant s -> invariant (step fileType s ev).
Proof.
  intros H. destruct ev; simpl.
  - now apply handleZoomIn_invariant.
  - now apply handleZoomOut_invariant.
  - now apply handleRotate_invariant.
  - destruct H as (Hs & Hp & Hr). split_invariant. repeat split; try lra. now left.
  - unfold handleMouseDown.
    destruct (isImage fileType && Qgtb (imageScale s) 1); [now apply anchored_invariant | exact H].
  - unfold handleMouseMove.
    destruct (isDragging s && Qgtb (imageScale s) 1); [now apply moved_invariant | exact H].
  - exact H.
  - exact H.
  - unfold handleTouchStart.
    destruct (isImage fileType && Qgtb (imageScale s) 1 && (List.length touches =? 1)%nat);
      [ | exact H].
    destruct (nth_error touches 0); [now apply anchored_invariant | exact H].
  - unfold handleTouchMove.
    destruct (isDragging s && Qgtb (imageScale s) 1 && (List.length touches =? 1)%nat);
      [ | exact H].
    destruct (nth_error touches 0); [now apply moved_invariant | exact H].
  - exact H.
  - destruct H as (Hs & Hp & Hr). split_invariant. repeat split; try lra. now left.
  - exact H.
Qed.

Lemma run_invariant (fileType : string) (evs : list Event) :
  forall s : ViewerState, invariant s -> invariant (run fileType evs s).
Proof.
  induction evs as [ | ev evs IH]; intros s H; simpl.
  - exact H.
  - apply IH. now apply step_invariant.
Qed.

Lemma reachable_invariant (fileType : string) (s : ViewerState) :
  reachable fileType s -> invariant s.
Proof.
  intros [evs ->]. apply run_invariant. exact initial_invariant.
Qed.

Lemma times_handleZoomIn_scale (n : nat) (s : ViewerState) :
  scaleInBounds s -> scaleInBounds (times n handleZoomIn s).
Proof.
  intros H. induction n as [ | n IH]; simpl; [exact H | ].
  unfold scaleInBounds in *. simpl. now apply zoomInScale_bounds.
Qed.

Lemma times_handleZoomOut_scale (n : nat) (s : ViewerState) :
  scaleInBounds s -> scaleInBounds (times n handleZoomOut s).
Proof.
  intros H. induction n as [ | n IH]; simpl; [exact H | ].
  unfold scaleInBounds in *. unfold handleZoomOut. simpl. now apply zoomOutScale_bounds.
Qed.

Lemma times_handleZoomIn_top (n : nat) (s : ViewerState) :
  imageScale s == 3 -> imageScale (times n handleZoomIn s) == 3.
Proof.
  intros H. induction n as [ | n IH]; simpl; [exact H | ].
  now apply zoomInScale_at_top.
Qed.

Lemma times_handleZoomOut_bottom (n : nat) (s : ViewerState) :
  imageScale s == (1#4) -> imageScale (times n handleZoomOut s) == (1#4).
Proof.
  intros H. induction n as [ | n IH]; simpl; [exact H | ].
  unfold handleZoomOut. simpl. now apply zoomOutScale_at_bottom.
Qed.

Lemma Qgtb_true (a b : Q) : Qgtb a b = true <-> b < a.
Proof.
  unfold Qgtb. rewrite negb_true_iff, <- not_true_iff_false, Qle_bool_iff.
  split; [apply Qnot_le_lt | apply Qlt_not_le].
Qed.

(** What one event can do to the pan offset: nothing, reset it to the
    origin, or set it to a clamped pair. *)
Lemma step_pan_cases (fileType : string) (s : ViewerState) (ev : Event) :
  panPosition (step fileType s ev) = panPosition s \/
  panPosition (step fileType s ev) = mkPoint 0 0 \/
  exists a b : Q, panPosition (step fileType s ev) = mkPoint (constrain a) (constrain b).
Proof.
  destruct ev; simpl; try (now left); try (now right; left).
  - unfold handleZoomOut.
    destruct (Qleb (zoomOutScale (imageScale s)) 1); simpl; [now right; left | now left].
  - unfold handleMouseDown.
    destruct (isImage fileType && Qgtb (imageScale s) 1); now left.
  - unfold handleMouseMove.
    destruct (isDragging s && Qgtb (imageScale s) 1); [ | now left].
    right; right. simpl. eauto.
  - unfold handleTouchStart.
    destruct (isImage fileType && Qgtb (imageScale s) 1 && (List.length touches =? 1)%nat);
      [ | now left].
    destruct (nth_error touches 0); now left.
  - unfold handleTouchMove.
    destruct (isDragging s && Qgtb (imageScale s) 1 && (List.length touches =? 1)%nat);
      [ | now left].
    destruct (nth_error touches 0); [ | now left].
    right; right. simpl. eauto.
Qed.

Lemma step_pan_bounds (fileType : string) (s : ViewerState) (ev : Event) :
  panInBounds s -> panInBounds (step fileType s ev).
Proof.
  intros H. unfold panInBounds in *.
  destruct (step_pan_cases fileType s ev) as [E | [E | (a & b & E)]]; rewrite E.
  - exact H.
  - simpl; lra.
  - simpl. split; apply constrain_bounds.
Qed.

(** C6. Whatever events reach the viewer, both components of the pan offset
    stay within [-200, 200].  While a drag is on and the scale is above 1, a
    mouse move and a one-finger touch move set each component to the pointer
    position minus the drag anchor, clamped to that interval; the clamp maps
    a value inside the interval to itself and a value outside to the nearer
    end.  Every event either keeps the offset, resets it to the origin, or
    stores a clamped pair, so an offset within the interval stays within it
    under every event. *)
Theorem pan_offset_always_clamped (fileType : string) :
  (forall evs : list Event, panInBounds (run fileType evs initial)) /\
  (forall (e : Point) (s : ViewerState),
      isDragging s = true -> 1 < imageScale s ->
      panPosition (handleMouseMove e s)
      = mkPoint (constrain (x e - x (dragStart s))) (constrain (y e - y (dragStart s)))) /\
  (forall (touch : Point) (s : ViewerState),
      isDragging s = true -> 1 < imageScale s ->
      panPosition (handleTouchMove [touch] s)
      = mkPoint (constrain (x touch - x (dragStart s)))
                (constrain (y touch - y (dragStart s)))) /\
  (forall v : Q,
      - (200) <= constrain v <= 200 /\
      (- (200) <= v <= 200 -> constrain v == v) /\
      (200 <= v -> constrain v == 200) /\
      (v <= - (200) -> constrain v == - (200))) /\
  (forall (s : ViewerState) (ev : Event),
      panPosition (step fileType s ev) = panPosition s \/
      panPosition (step fileType s ev) = mkPoint 0 0 \/
      exists a b : Q, panPosition (step fileType s ev) = mkPoint (constrain a) (constrain b)) /\
  (forall (s : ViewerState) (ev : Event),
      panInBounds s -> panInBounds (step fileType s ev)).
Proof.
  repeat apply conj.
  - intros evs.
    exact (proj1 (proj2 (run_invariant fileType evs initial initial_invariant))).
  - intros e s Hd Hs. unfold handleMouseMove.
    rewrite Hd, (proj2 (Qgtb_true _ _) Hs). reflexivity.
  - intros touch s Hd Hs. unfold handleTouchMove.
    rewrite Hd, (proj2 (Qgtb_true _ _) Hs). reflexivity.
  - intros v. repeat apply conj.
    + apply constrain_bounds.
    + apply constrain_bounds.
    + apply constrain_inside.
    + apply constrain_above.
    + apply constrain_below.
  - apply step_pan_cases.
  - apply step_pan_bounds.
Qed.

(** A drag far to the lower left on a zoomed image: the offset ends at the
    corner of the allowed square. *)
Lemma pan_offset_always_clamped_witness :
  let s := run "image/png" [ZoomIn; MouseDown (mkPoint 10 10)] initial in
  panInBounds (run "image/png" [ZoomIn; MouseDown (mkPoint 10 10); MouseMove (mkPoint 500 (-3000))] initial) /\
  panPosition (handleMouseMove (mkPoint 500 (-3000)) s)
  = mkPoint (constrain (500 - 10)) (constrain (-3000 - 10)) /\
  panPosition (handleTouchMove [mkPoint 500 (-3000)] s)
  = mkPoint (constrain (500 - 10)) (constrain (-3000 - 10)) /\
  constrain 17 == 17 /\ constrain 490 == 200 /\ constrain (-3010) == - (200) /\
  panInBounds (step "image/png" s (MouseMove (mkPoint 500 (-3000)))).
Proof.
  intros s.
  destruct (pan_offset_always_clamped "image/png") as (H1 & H2 & H3 & H4 & _ & H6).
  split; [apply H1 | ].
  split; [apply (H2 (mkPoint 500 (-3000)) s); vm_compute; reflexivity | ].
  split; [apply (H3 (mkPoint 500 (-3000)) s); vm_compute; reflexivity | ].
  split; [apply (H4 17); vm_compute; split; discriminate | ].
  split; [apply (H4 490); vm_compute; discriminate | ].
  split; [apply (H4 (-3010)); vm_compute; discriminate | ].
  apply (H6 s); vm_compute; split; split; discriminate.
Defined.

(** C7. In every state the viewer can reach the scale lies in [1/4, 3].
    Zooming in sets it to min(scale + 1/4, 3) and zooming out to
    max(scale - 1/4, 1/4); any number of zoom-ins at 3 leaves it at 3, any
    number of zoom-outs at 1/4 leaves it at 1/4, and no number of either
    takes a scale within the bounds outside them. *)
Theorem scale_always_within_zoom_bounds (fileType : string) :
  (forall s : ViewerState, reachable fileType s -> (1#4) <= imageScale s <= 3) /\
  (forall s : ViewerState, imageScale (handleZoomIn s) = Qmin (imageScale s + (1#4)) 3) /\
  (forall s : ViewerState, imageScale (handleZoomOut s) = Qmax (imageScale s - (1#4)) (1#4)) /\
  (forall (n : nat) (s : ViewerState),
      imageScale s == 3 -> imageScale (times n handleZoomIn s) == 3) /\
  (forall (n : nat) (s : ViewerState),
      imageScale s == (1#4) -> imageScale (times n handleZoomOut s) == (1#4)) /\
  (forall (n : nat) (s : ViewerState),
      (1#4) <= imageScale s <= 3 ->
      (1#4) <= imageScale (times n handleZoomIn s) <= 3 /\
      (1#4) <= imageScale (times n handleZoomOut s) <= 3).
Proof.
  repeat apply conj.
  - intros s Hr. exact (proj1 (reachable_invariant fileType s Hr)).
  - intros s. reflexivity.
  - intros s. unfold handleZoomOut.
    destruct (Qleb (zoomOutScale (imageScale s)) 1); reflexivity.
  - apply times_handleZoomIn_top.
  - apply times_handleZoomOut_bottom.
  - intros n s H. split.
    + now apply times_handleZoomIn_scale.
    + now apply times_handleZoomOut_scale.
Qed.

(** Ten zoom-ins from the mounted state stop at 3; five zoom-outs stop at
    1/4. *)
Lemma scale_always_within_zoom_bounds_witness :
  let top := run "image/png" (repeat ZoomIn 10) initial in
  let bottom := run "image/png" (repeat ZoomOut 5) initial in
  (1#4) <= imageScale top <= 3 /\
  imageScale (times 7 handleZoomIn top) == 3 /\
  imageScale (times 7 handleZoomOut bottom) == (1#4) /\
  (1#4) <= imageScale (times 20 handleZoomIn bottom) <= 3 /\
  (1#4) <= imageScale (times 20 handleZoomOut top) <= 3.
Proof.
  intros top bottom.
  destruct (scale_always_within_zoom_bounds "image/png") as (H1 & _ & _ & H4 & H5 & H6).
  split; [apply (H1 top); exists (repeat ZoomIn 10); vm_compute; reflexivity | ].
  split; [apply (H4 7%nat top); vm_compute; reflexivity | ].
  split; [apply (H5 7%nat bottom); vm_compute; reflexivity | ].
  split; [apply (H6 20%nat bottom); vm_compute; split; discriminate | ].
  apply (H6 20%nat top); vm_compute; split; discriminate.
Defined.

(** C8. In every state the viewer can reach, the transform of the image is
    the scale by the current scale, then the rotation by the current angle,
    then a translation whose two amounts are the components of the pan
    offset, each divided by the current scale.  The divisor is at least
    1/4, hence positive and never zero, so the division is defined; the
    dividends lie within [-200, 200]. *)
Theorem transform_translate_is_pan_over_scale (fileType : string) (s : ViewerState) :
  reachable fileType s ->
  exists tx ty : Quotient,
    imgTransform s = [scale (imageScale s); rotate (imageRotation s); translate tx ty] /\
    dividend tx = x (panPosition s) /\
    dividend ty = y (panPosition s) /\
    divisor tx = imageScale s /\
    divisor ty = imageScale s /\
    (1#4) <= divisor tx /\
    0 < divisor tx /\
    ~ divisor tx == 0 /\
    - (200) <= dividend tx <= 200 /\
    - (200) <= dividend ty <= 200.
Proof.
  intros Hr.
  destruct (reachable_invariant fileType s Hr) as ((Hlo & _) & (Hx & Hy) & _).
  exists (over (x (panPosition s)) (imageScale s)), (over (y (panPosition s)) (imageScale s)).
  simpl. repeat split; try reflexivity; try tauto; lra.
Qed.

(** Zoomed to 1.5 and dragged by (40, -60): the translation divides 40 and
    -60 by 1.5. *)
Lemma transform_translate_is_pan_over_scale_witness :
  let s := run "image/png"
             [ZoomIn; ZoomIn; MouseDown (mkPoint 10 10); MouseMove (mkPoint 50 (-50))]
             initial in
  exists tx ty : Quotient,
    imgTransform s = [scale (imageScale s); rotate (imageRotation s); translate tx ty] /\
    dividend tx = x (panPosition s) /\
    dividend ty = y (panPosition s) /\
    divisor tx = imageScale s /\
    divisor ty = imageScale s /\
    (1#4) <= divisor tx /\
    0 < divisor tx /\
    ~ divisor tx == 0 /\
    - (200) <= dividend tx <= 200 /\
    - (200) <= dividend ty <= 200.
Proof.
  intros s.
  apply (transform_translate_is_pan_over_scale "image/png" s).
  exists [ZoomIn; ZoomIn; MouseDown (mkPoint 10 10); MouseMove (mkPoint 50 (-50))].
  reflexivity.
Defined.

Lemma times_four_handleRotate (s : ViewerState) :
  imageRotation (times 4 handleRotate s)
  = rotateBy90 (rotateBy90 (rotateBy90 (rotateBy90 (imageRotation s)))).
Proof. reflexivity. Qed.

(** C9. The rotate operation maps the angle to the remainder of
    (angle + 90) by 360, which on the angles the viewer can reach is
    (angle + 90) mod 360.  Every reachable angle is one of 0, 90, 180 and
    270, and four rotations in a row bring a reachable state back to the
    angle it started from; from the mounted state that angle is 0. *)
Theorem rotate_four_times_returns (fileType : string) :
  (forall s : ViewerState,
      imageRotation (handleRotate s) = Z.rem (imageRotation s + 90) 360) /\
  (forall s : ViewerState,
      reachable fileType s ->
      imageRotation (handleRotate s) = ((imageRotation s + 90) mod 360)%Z) /\
  (forall s : ViewerState,
      reachable fileType s -> In (imageRotation s) [0; 90; 180; 270]%Z) /\
  (forall s : ViewerState,
      reachable fileType s ->
      imageRotation (times 4 handleRotate s) = imageRotation s) /\
  imageRotation (times 4 handleRotate initial) = 0%Z.
Proof.
  split; [intros s; reflexivity | ].
  split.
  { intros s Hr.
    destruct (reachable_invariant fileType s Hr) as (_ & _ & Hq).
    unfold handleRotate, rotateBy90; simpl.
    apply Z.rem_mod_nonneg; [ | lia].
    unfold rotationQuarter in Hq; simpl in Hq.
    destruct Hq as [H | [H | [H | [H | []]]]]; rewrite <- H; lia. }
  split.
  { intros s Hr. exact (proj2 (proj2 (reachable_invariant fileType s Hr))). }
  split.
  { intros s Hr. rewrite times_four_handleRotate.
    apply rotateBy90_four.
    exact (proj2 (proj2 (reachable_invariant fileType s Hr))). }
  reflexivity.
Qed.

(** After one rotation and some zooming the angle is 90; four more
    rotations give 90 again. *)
Lemma rotate_four_times_returns_witness :
  let s := run "image/png" [Rotate; ZoomIn; ZoomOut] initial in
  imageRotation (handleRotate s) = ((imageRotation s + 90) mod 360)%Z /\
  In (imageRotation s) [0; 90; 180; 270]%Z /\
  imageRotation (times 4 handleRotate s) = imageRotation s.
Proof.
  intros s.
  assert (Hr : reachable "image/png" s) by (exists [Rotate; ZoomIn; ZoomOut]; reflexivity).
  destruct (rotate_four_times_returns "image/png") as (_ & H2 & H3 & H4 & _).
  split; [exact (H2 s Hr) | ].
  split; [exact (H3 s Hr) | exact (H4 s Hr)].
Defined.

End MediaViewerFacts.

(** ** The validation schema *)

Module ValidationFacts.

Import JS.
Import Validation.

Lemma errorKinds_app (a b : list ZodIssue) :
  errorKinds (a ++ b) = errorKinds a ++ errorKinds b.
Proof.
  induction a as [ | i a IH]; simpl; [reflexivity | ].
  destruct (errorKind i); simpl; now rewrite IH.
Qed.

(** No mime type starts with both prefixes. *)
Lemma image_is_not_video (s : string) :
  startsWith s "image/" = true -> startsWith s "video/" = false.
Proof.
  unfold startsWith. destruct s as [ | c s]; cbn [String.prefix];
    [intros H; discriminate H | ].
  destruct (ascii_dec "i" c) as [E | N]; [ | intros H; discriminate H].
  subst c. intros _. destruct (ascii_dec "v" "i") as [E | _]; [discriminate E | reflexivity].
Qed.

Lemma fileCheck_fileFailure (link : option string) (f : File) :
  fileCheck (mkData link (Some f)) = true <-> fileFailure f = None.
Proof.
  unfold fileCheck, fileFailure, isImageFile, isVideoFile; simpl.
  destruct (negb (startsWith (type f) "image/") && negb (startsWith (type f) "video/")).
  - split; discriminate.
  - rewrite Z.gtb_ltb, Z.ltb_antisym.
    destruct (size f <=? (if startsWith (type f) "image/" then oneMB else fiveMB));
      simpl; split; congruence.
Qed.

Lemma fileIssue_kind (link : option string) (f : File) :
  fileCheck (mkData link (Some f)) = false ->
  errorKind (fileIssue (mkData link (Some f))) = fileFailure f.
Proof.
  unfold fileCheck, fileIssue, fileFailure, isImageFile, isVideoFile; simpl.
  destruct (negb (startsWith (type f) "image/") && negb (startsWith (type f) "video/")).
  - intros _. reflexivity.
  - rewrite Z.gtb_ltb, Z.ltb_antisym.
    destruct (size f <=? (if startsWith (type f) "image/" then oneMB else fiveMB));
      simpl; [discriminate | ].
    intros _. destruct (startsWith (type f) "image/"); reflexivity.
Qed.

(** The kinds validation reports, refinement by refinement. *)
Lemma validate_unfold (isUrl : string -> bool) (data : AddProofFormData) :
  validate isUrl data
  = (if proofLinkCheck isUrl (proofLink data) then [] else [InvalidUrl])
    ++ (if linkOrFileCheck data then [] else [MissingInput])
    ++ match file data with
       | Some f =>
           match fileFailure f with
           | Some k => [k]
           | None => []
           end
       | None => []
       end.
Proof.
  unfold validate, addProofSchema, refine, objectSchema.
  rewrite !errorKinds_app, <- app_assoc. f_equal; [ | f_equal].
  - destruct (proofLinkCheck isUrl (proofLink data)); reflexivity.
  - destruct (linkOrFileCheck data); reflexivity.
  - destruct data as [link [f | ]]; simpl; [ | reflexivity].
    destruct (fileCheck (mkData link (Some f))) eqn:E.
    + apply fileCheck_fileFailure in E. now rewrite E.
    + simpl. rewrite (fileIssue_kind link f E).
      destruct (fileFailure f) eqn:F; [reflexivity | ].
      apply (fileCheck_fileFailure link f) in F. congruence.
Qed.

Lemma in_unless (c : bool) (a k : ValidationError) :
  In k (if c then [] else [a]) <-> k = a /\ c = false.
Proof.
  destruct c; simpl.
  - split; [tauto | intros [_ H]; discriminate H].
  - split; [intros [H | []]; auto | intros [H _]; auto].
Qed.

Lemma in_fileFailure (file : option File) (k : ValidationError) :
  In k match file with
       | Some f =>
           match fileFailure f with
           | Some k' => [k']
           | None => []
           end
       | None => []
       end
  <-> exists f : File, file = Some f /\ fileFailure f = Some k.
Proof.
  destruct file as [f | ].
  - destruct (fileFailure f) as [k' | ] eqn:F; simpl.
    + split.
      * intros [H | []]. subst k'. now exists f.
      * intros (f' & Hf & Hk). inversion Hf; subst f'. left. congruence.
    + split; [tauto | ].
      intros (f' & Hf & Hk). inversion Hf; subst f'. congruence.
  - simpl. split; [tauto | intros (f' & Hf & _); discriminate Hf].
Qed.

Lemma yields_unfold (isUrl : string -> bool) (data : AddProofFormData) (k : ValidationError) :
  yields isUrl data k <->
  (k = InvalidUrl /\ proofLinkCheck isUrl (proofLink data) = false) \/
  (k = MissingInput /\ linkOrFileCheck data = false) \/
  (exists f : File, file data = Some f /\ fileFailure f = Some k).
Proof.
  unfold yields.
  rewrite validate_unfold, !in_app_iff, !in_unless, in_fileFailure.
  reflexivity.
Qed.

Lemma fileFailure_image (f : File) :
  isImageFile f = true ->
  fileFailure f = if size f >? oneMB then Some FileTooLarge else None.
Proof. intros H. unfold fileFailure. now rewrite H. Qed.

Lemma fileFailure_video (f : File) :
  isVideoFile f = true ->
  fileFailure f = if size f >? fiveMB then Some FileTooLarge else None.
Proof.
  intros H. unfold fileFailure. rewrite H.
  destruct (isImageFile f) eqn:I.
  - apply image_is_not_video in I. unfold isVideoFile in H. congruence.
  - reflexivity.
Qed.

Lemma fileFailure_other (f : File) :
  isImageFile f = false -> isVideoFile f = false ->
  fileFailure f = Some UnsupportedFileType.
Proof. intros I V. unfold fileFailure. now rewrite I, V. Qed.

Lemma yields_file_kind (isUrl : string -> bool) (link : option string) (f : File)
  (k : ValidationError) :
  k = UnsupportedFileType \/ k = FileTooLarge ->
  (yields isUrl (mkData link (Some f)) k <-> fileFailure f = Some k).
Proof.
  intros Hk. rewrite yields_unfold. simpl. split.
  - intros [[E _] | [[E _] | (f' & Hf & Hk')]].
    + destruct Hk; congruence.
    + destruct Hk; congruence.
    + inversion Hf; subst f'. exact Hk'.
  - intros H. right; right. now exists f.
Qed.

(** C2. For an image file validation reports [FileTooLarge] exactly when
    the size is above 1,048,576 bytes, and for a video file exactly when it
    is above 5,242,880 bytes.  A file of exactly the limit of its class
    passes the file refinement whatever the link is, and on its own it is a
    valid submission. *)
Theorem file_too_large_iff_above_class_limit (isUrl : string -> bool)
  (link : option string) (f : File) :
  (isImageFile f = true ->
     (yields isUrl (mkData link (Some f)) FileTooLarge <-> size f > 1048576) /\
     (size f = 1048576 ->
        fileCheck (mkData link (Some f)) = true /\
        addProofSchema isUrl (mkData None (Some f)) = [])) /\
  (isVideoFile f = true ->
     (yields isUrl (mkData link (Some f)) FileTooLarge <-> size f > 5242880) /\
     (size f = 5242880 ->
        fileCheck (mkData link (Some f)) = true /\
        addProofSchema isUrl (mkData None (Some f)) = [])).
Proof.
  assert (Hvalid : fileFailure f = None -> addProofSchema isUrl (mkData None (Some f)) = []).
  { intros F. unfold addProofSchema, refine, objectSchema. simpl.
    now rewrite (proj2 (fileCheck_fileFailure None f) F). }
  split; intros Hc.
  - pose proof (fileFailure_image f Hc) as F. split.
    + rewrite yields_file_kind by (now right). rewrite F.
      destruct (Z.gtb_spec (size f) oneMB) as [G | G]; unfold oneMB in G;
        split; intros H; try lia; congruence.
    + intros E.
      assert (F' : fileFailure f = None).
      { rewrite F, E. reflexivity. }
      split; [now apply fileCheck_fileFailure | now apply Hvalid].
  - pose proof (fileFailure_video f Hc) as F. split.
    + rewrite yields_file_kind by (now right). rewrite F.
      destruct (Z.gtb_spec (size f) fiveMB) as [G | G]; unfold fiveMB in G;
        split; intros H; try lia; congruence.
    + intros E.
      assert (F' : fileFailure f = None).
      { rewrite F, E. reflexivity. }
      split; [now apply fileCheck_fileFailure | now apply Hvalid].
Qed.

(** A PNG of 1 MiB + 1 byte is too large and one of exactly 1 MiB passes;
    likewise an MP4 around 5 MiB. *)
Lemma file_too_large_iff_above_class_limit_witness :
  let isUrl := fun _ : string => true in
  yields isUrl (mkData None (Some (mkFile "a.png" "image/png" 1048577))) FileTooLarge /\
  addProofSchema isUrl (mkData None (Some (mkFile "a.png" "image/png" 1048576))) = [] /\
  yields isUrl (mkData None (Some (mkFile "a.mp4" "video/mp4" 5242881))) FileTooLarge /\
  addProofSchema isUrl (mkData None (Some (mkFile "a.mp4" "video/mp4" 5242880))) = [].
Proof.
  intros isUrl.
  split.
  { apply (proj1 (file_too_large_iff_above_class_limit isUrl None
                    (mkFile "a.png" "image/png" 1048577)) eq_refl).
    reflexivity. }
  split.
  { apply (proj1 (file_too_large_iff_above_class_limit isUrl None
                    (mkFile "a.png" "image/png" 1048576)) eq_refl).
    reflexivity. }
  split.
  { apply (proj2 (file_too_large_iff_above_class_limit isUrl None
                    (mkFile "a.mp4" "video/mp4" 5242881)) eq_refl).
    reflexivity. }
  apply (proj2 (file_too_large_iff_above_class_limit isUrl None
                  (mkFile "a.mp4" "video/mp4" 5242880)) eq_refl).
  reflexivity.
Defined.

Lemma truthy_false (v : option string) :
  truthy v = false <-> v = None \/ v = Some "".
Proof.
  destruct v as [[ | c s] | ]; simpl; split; intros H; auto;
    try discriminate H; destruct H as [H | H]; discriminate H.
Qed.

Lemma linkOrFileCheck_false (data : AddProofFormData) :
  linkOrFileCheck data = false <->
  (proofLink data = None \/ proofLink data = Some "") /\ file data = None.
Proof.
  unfold linkOrFileCheck. rewrite orb_false_iff, truthy_false.
  destruct (file data); simpl; split; intros [H1 H2]; split; auto; discriminate H2.
Qed.

(** C3. Validation reports [MissingInput] exactly when the link is absent
    or empty and no file is given.  A file alone, or a non-empty link alone,
    meets the requirement; with both a non-empty link and a file, the
    failures are those of the link alone followed by those of the file
    alone, so nothing is reported for having both. *)
Theorem missing_input_iff_neither_provided (isUrl : string -> bool) :
  (forall data : AddProofFormData,
      yields isUrl data MissingInput <->
      (proofLink data = None \/ proofLink data = Some "") /\ file data = None) /\
  (forall (link : option string) (f : File),
      ~ yields isUrl (mkData link (Some f)) MissingInput) /\
  (forall (link : string) (file : option File),
      link <> "" -> ~ yields isUrl (mkData (Some link) file) MissingInput) /\
  (forall (link : string) (f : File),
      link <> "" ->
      validate isUrl (mkData (Some link) (Some f))
      = validate isUrl (mkData (Some link) None) ++ validate isUrl (mkData None (Some f))).
Proof.
  assert (Hiff : forall data : AddProofFormData,
             yields isUrl data MissingInput <->
             (proofLink data = None \/ proofLink data = Some "") /\ file data = None).
  { intros data. rewrite yields_unfold, <- linkOrFileCheck_false. split.
    - intros [[E _] | [[_ H] | (f & Hf & Hk)]].
      + discriminate E.
      + exact H.
      + unfold fileFailure in Hk.
        destruct (negb (isImageFile f) && negb (isVideoFile f)); [discriminate Hk | ].
        destruct (size f >? (if isImageFile f then oneMB else fiveMB)); discriminate Hk.
    - intros H. right; left. now split. }
  split; [exact Hiff | ].
  split.
  { intros link f H. apply Hiff in H. simpl in H. destruct H as [_ H]. discriminate H. }
  split.
  { intros link file Hne H. apply Hiff in H. simpl in H.
    destruct H as [[H | H] _]; [discriminate H | ]. congruence. }
  intros link f Hne. rewrite !validate_unfold. simpl.
  unfold linkOrFileCheck. simpl.
  destruct link as [ | c link]; [congruence | ]. simpl.
  rewrite !app_nil_r.
  destruct (isUrl (String c link)); reflexivity.
Qed.

(** An empty link without a file is missing input; a link with a file is
    not, and its failures are those of its two parts. *)
Lemma missing_input_iff_neither_provided_witness :
  let isUrl := fun _ : string => false in
  let clip := mkFile "clip.mp4" "video/mp4" 6000000 in
  yields isUrl (mkData (Some "") None) MissingInput /\
  ~ yields isUrl (mkData (Some "not a url") None) MissingInput /\
  validate isUrl (mkData (Some "not a url") (Some clip))
  = validate isUrl (mkData (Some "not a url") None) ++ validate isUrl (mkData None (Some clip)).
Proof.
  intros isUrl clip.
  destruct (missing_input_iff_neither_provided isUrl) as (H1 & _ & H3 & H4).
  split.
  { apply (H1 (mkData (Some "") None)). split; [right | ]; reflexivity. }
  split.
  { apply (H3 "not a url" None). discriminate. }
  apply (H4 "not a url" clip). discriminate.
Defined.

(** C4. A file whose mime type starts with neither "image/" nor "video/"
    makes validation report [UnsupportedFileType], whatever its size, its
    name and the link beside it: the schema raises the issue "File must be
    an image or video" on the file field, and no size failure is
    reported for it. *)
Theorem unsupported_type_regardless_of_size (isUrl : string -> bool)
  (link : option string) (name type : string) (size : Z) :
  startsWith type "image/" = false ->
  startsWith type "video/" = false ->
  yields isUrl (mkData link (Some (mkFile name type size))) UnsupportedFileType /\
  In (mkIssue "File must be an image or video" ["file"])
     (addProofSchema isUrl (mkData link (Some (mkFile name type size)))) /\
  ~ yields isUrl (mkData link (Some (mkFile name type size))) FileTooLarge.
Proof.
  intros I V.
  pose proof (fileFailure_other (mkFile name type size) I V) as F.
  split; [ | split].
  - apply yields_file_kind; [now left | exact F].
  - unfold addProofSchema, refine. apply in_or_app. right.
    unfold fileCheck, fileIssue. simpl. rewrite I, V. simpl. now left.
  - intros H. apply yields_file_kind in H; [ | now right]. congruence.
Qed.

(** A PDF, small or huge, is an unsupported type. *)
Lemma unsupported_type_regardless_of_size_witness :
  let isUrl := fun _ : string => true in
  yields isUrl (mkData None (Some (mkFile "cv.pdf" "application/pdf" 12))) UnsupportedFileType /\
  yields isUrl (mkData (Some "https://example.com/x")
                  (Some (mkFile "cv.pdf" "application/pdf" 99999999)))
    UnsupportedFileType.
Proof.
  intros isUrl.
  split.
  - apply (unsupported_type_regardless_of_size isUrl None "cv.pdf" "application/pdf" 12);
      reflexivity.
  - apply (unsupported_type_regardless_of_size isUrl (Some "https://example.com/x")
             "cv.pdf" "application/pdf" 99999999); reflexivity.
Defined.

End ValidationFacts.

(** ** The submit pipeline *)

Module SubmissionFormFacts.

Import JS.
Import SupabaseClient.
Import SubmissionForm.

(** One submission, case by case: which calls and alerts it makes and the
    component it leaves. *)
Lemma submit_unfold
  (upload : Validation.File -> Settled UploadResult)
  (insert : SupabaseActions.ProofSubmission -> Settled SupabaseActions.InsertResult)
  (clientNow : string) (data : Validation.AddProofFormData) (c : Component) :
  submit upload insert clientNow data c =
  let idle :=
    mkComponent (isOpen c) (submissionResult c) false (showMediaViewer c) (values c) in
  let insertStep := fun (calls : list Effect) (fileUrl : option string) =>
    let proofData :=
      SupabaseActions.mkProofSubmission
        (Validation.proofLink data)
        (option_map Validation.name (Validation.file data))
        fileUrl
        (option_map Validation.size (Validation.file data))
        (option_map Validation.type (Validation.file data)) in
    match insert proofData with
    | Rejected e =>
        (calls ++ [CallInsert proofData; Alert ("Submission failed: " ++ errorText e)%string],
         idle)
    | Fulfilled dbResult =>
        if SupabaseActions.success dbResult then
          (calls ++ [CallInsert proofData],
           mkComponent (isOpen c)
             (Some (mkSubmissionResult
                      (SupabaseActions.id dbResult)
                      (Validation.proofLink data)
                      (option_map Validation.name (Validation.file data))
                      fileUrl
                      (option_map Validation.size (Validation.file data))
                      (option_map Validation.type (Validation.file data))
                      clientNow "pending"))
             false (showMediaViewer c) (Validation.mkData None None))
        else
          (calls ++ [CallInsert proofData;
                     Alert ("Database error: " ++ template (SupabaseActions.error dbResult))%string],
           idle)
    end in
  match Validation.file data with
  | None => insertStep [] None
  | Some f =>
      match upload f with
      | Rejected e =>
          ([CallUpload f; Alert ("Submission failed: " ++ errorText e)%string], idle)
      | Fulfilled uploadResult =>
          if truthy (error uploadResult) then
            ([CallUpload f;
              Alert ("File upload failed: " ++ template (error uploadResult))%string], idle)
          else insertStep [CallUpload f] (Some (url uploadResult))
      end
  end.
Proof.
  unfold submit, onSubmit, tryCatchFinally, bind, await, when, alert, emit,
    setIsSubmitting, setSubmissionResult, reset, update, ret, returnNow, errorText.
  cbn zeta. simpl.
  destruct (Validation.file data) as [f | ]; simpl.
  - destruct (upload f) as [r | e]; simpl; [ | reflexivity].
    destruct (truthy (error r)) eqn:E; simpl; [rewrite E; reflexivity | ].
    match goal with |- context [insert ?p] => destruct (insert p) as [d | e] end;
      simpl; [ | reflexivity].
    destruct (SupabaseActions.success d); reflexivity.
  - match goal with |- context [insert ?p] => destruct (insert p) as [d | e] end;
      simpl; [ | reflexivity].
    destruct (SupabaseActions.success d); reflexivity.
Qed.

Ltac insert_cases insert :=
  match goal with
  | |- context [insert ?p] =>
      let d := fresh "d0" in
      let e := fresh "e0" in
      let Hi := fresh "Hinsert" in
      let Hs := fresh "Hsuccess" in
      destruct (insert p) as [d | e] eqn:Hi;
      [destruct (SupabaseActions.success d) eqn:Hs | ]
  end.

Ltac submit_cases upload insert data :=
  rewrite submit_unfold; cbv zeta;
  let f := fresh "f0" in
  let r := fresh "r0" in
  let e := fresh "e0" in
  let Hf := fresh "Hfile" in
  let Hu := fresh "Hupload" in
  let Ht := fresh "Htruthy" in
  destruct (Validation.file data) as [f | ] eqn:Hf;
  [ destruct (upload f) as [r | e] eqn:Hu;
    [ destruct (truthy (error r)) eqn:Ht; [ | insert_cases insert ] | ]
  | insert_cases insert ];
  simpl in *.

Ltac log_inversion :=
  repeat match goal with
    | H : In _ (_ :: _) |- _ => destruct H as [H | H]
    | H : In _ [] |- _ => destruct H
    | H : _ \/ _ |- _ => destruct H as [H | H]
    | H : False |- _ => destruct H
    | H : CallInsert _ = CallInsert _ |- _ => inversion H; subst; clear H
    | H : CallUpload _ = CallUpload _ |- _ => inversion H; subst; clear H
    | H : Alert _ = Alert _ |- _ => inversion H; subst; clear H
    | H : CallUpload _ = CallInsert _ |- _ => discriminate H
    | H : CallInsert _ = CallUpload _ |- _ => discriminate H
    | H : Alert _ = CallInsert _ |- _ => discriminate H
    | H : CallInsert _ = Alert _ |- _ => discriminate H
    | H : Alert _ = CallUpload _ |- _ => discriminate H
    | H : CallUpload _ = Alert _ |- _ => discriminate H
    end.

(** Splitting a short log at an insert call. *)
Lemma split_at_insert (l pre post : list Effect) (p : SupabaseActions.ProofSubmission) :
  l = pre ++ CallInsert p :: post ->
  forall (calls : list Effect) (q : SupabaseActions.ProofSubmission) (rest : list Effect),
    l = calls ++ CallInsert q :: rest ->
    (forall x, ~ In (CallInsert x) calls) ->
    (forall x, ~ In (CallInsert x) rest) ->
    pre = calls /\ p = q /\ post = rest.
Proof.
  intros -> calls. revert pre.
  induction calls as [ | a calls IH]; intros pre q rest E Hc Hr.
  - destruct pre as [ | b pre]; simpl in E.
    + inversion E; subst. auto.
    + inversion E; subst. exfalso. apply (Hr p). apply in_or_app. right. now left.
  - destruct pre as [ | b pre]; simpl in E.
    + inversion E; subst. exfalso. apply (Hc p). now left.
    + inversion E; subst.
      destruct (IH pre q rest H1) as (-> & -> & ->).
      * intros x Hx. apply (Hc x). now right.
      * exact Hr.
      * auto.
Qed.

(** Whatever the collaborators answer, a log has at most one insert call,
    preceded by the upload call when there is a file and by nothing else. *)
Lemma submit_log_shape
  (upload : Validation.File -> Settled UploadResult)
  (insert : SupabaseActions.ProofSubmission -> Settled SupabaseActions.InsertResult)
  (clientNow : string) (data : Validation.AddProofFormData) (c : Component) :
  let l := fst (submit upload insert clientNow data c) in
  let calls :=
    match Validation.file data with
    | Some f => [CallUpload f]
    | None => []
    end in
  (forall p, ~ In (CallInsert p) l) \/
  (exists p rest, l = calls ++ CallInsert p :: rest /\
                  (rest = [] \/ exists msg, rest = [Alert msg])).
Proof.
  intros l calls. subst l calls.
  submit_cases upload insert data.
  all: try (left; intros p H; log_inversion; fail).
  all: right; eexists; eexists; split; [reflexivity | ]; eauto.
Qed.

Lemma truthy_nonempty (msg : string) : msg <> "" -> truthy (Some msg) = true.
Proof. destruct msg; [congruence | reflexivity]. Qed.

Lemma upload_precedes_insert
  (upload : Validation.File -> Settled UploadResult)
  (insert : SupabaseActions.ProofSubmission -> Settled SupabaseActions.InsertResult)
  (clientNow : string) (data : Validation.AddProofFormData) (c : Component)
  (pre post : list Effect) (p : SupabaseActions.ProofSubmission) :
  fst (submit upload insert clientNow data c) = pre ++ CallInsert p :: post ->
  pre = match Validation.file data with
        | Some f => [CallUpload f]
        | None => []
        end /\
  (forall e, In e post -> exists msg, e = Alert msg).
Proof.
  intros E.
  destruct (submit_log_shape upload insert clientNow data c) as [Hno | (q & rest & Hl & Hrest)].
  - exfalso. apply (Hno p). cbv zeta. rewrite E. apply in_or_app. right. now left.
  - cbv zeta in Hl.
    destruct (split_at_insert _ pre post p E _ q rest Hl) as (-> & -> & ->).
    + intros x Hx. destruct (Validation.file data); simpl in Hx; log_inversion.
    + intros x Hx. destruct Hrest as [-> | (msg & ->)]; simpl in Hx; log_inversion.
    + split; [reflexivity | ].
      intros e He. destruct Hrest as [-> | (msg & ->)]; simpl in He.
      * destruct He.
      * destruct He as [<- | []]. now exists msg.
Qed.

Lemma upload_error_aborts
  (upload : Validation.File -> Settled UploadResult)
  (insert : SupabaseActions.ProofSubmission -> Settled SupabaseActions.InsertResult)
  (clientNow : string) (data : Validation.AddProofFormData) (c : Component)
  (f : Validation.File) (r : UploadResult) (msg : string) :
  Validation.file data = Some f ->
  upload f = Fulfilled r ->
  error r = Some msg ->
  msg <> "" ->
  submit upload insert clientNow data c
  = ([CallUpload f; Alert ("File upload failed: " ++ msg)%string],
     mkComponent (isOpen c) (submissionResult c) false (showMediaViewer c) (values c)).
Proof.
  intros Hf Hu He Hne.
  rewrite submit_unfold. cbv zeta.
  rewrite Hf, Hu, He, (truthy_nonempty msg Hne). reflexivity.
Qed.

Lemma upload_rejection_aborts
  (upload : Validation.File -> Settled UploadResult)
  (insert : SupabaseActions.ProofSubmission -> Settled SupabaseActions.InsertResult)
  (clientNow : string) (data : Validation.AddProofFormData) (c : Component)
  (f : Validation.File) (e : Thrown) :
  Validation.file data = Some f ->
  upload f = Rejected e ->
  submit upload insert clientNow data c
  = ([CallUpload f; Alert ("Submission failed: " ++ errorText e)%string],
     mkComponent (isOpen c) (submissionResult c) false (showMediaViewer c) (values c)).
Proof.
  intros Hf Hu.
  rewrite submit_unfold. cbv zeta.
  rewrite Hf, Hu. reflexivity.
Qed.

Lemma insert_error_aborts
  (upload : Validation.File -> Settled UploadResult)
  (insert : SupabaseActions.ProofSubmission -> Settled SupabaseActions.InsertResult)
  (clientNow : string) (data : Validation.AddProofFormData) (c : Component)
  (p : SupabaseActions.ProofSubmission) :
  In (CallInsert p) (fst (submit upload insert clientNow data c)) ->
  (forall d : SupabaseActions.InsertResult,
      insert p = Fulfilled d -> SupabaseActions.success d = false ->
      (exists pre,
          fst (submit upload insert clientNow data c)
          = pre ++ [CallInsert p;
                    Alert ("Database error: " ++ template (SupabaseActions.error d))%string]) /\
      submissionResult (snd (submit upload insert clientNow data c)) = submissionResult c) /\
  (forall e : Thrown,
      insert p = Rejected e ->
      (exists pre,
          fst (submit upload insert clientNow data c)
          = pre ++ [CallInsert p; Alert ("Submission failed: " ++ errorText e)%string]) /\
      submissionResult (snd (submit upload insert clientNow data c)) = submissionResult c).
Proof.
  submit_cases upload insert data; intros Hin; log_inversion;
    (split; [intros d Hd Hs | intros e He]);
    try congruence;
    (split; [ | reflexivity]).
  - exists [CallUpload f0]. simpl. congruence.
  - exists [CallUpload f0]. simpl. congruence.
  - exists []. simpl. congruence.
  - exists []. simpl. congruence.
Qed.

Lemma result_only_on_success
  (upload : Validation.File -> Settled UploadResult)
  (insert : SupabaseActions.ProofSubmission -> Settled SupabaseActions.InsertResult)
  (clientNow : string) (data : Validation.AddProofFormData) (c : Component)
  (result : SubmissionResult) :
  submissionResult c = None ->
  submissionResult (snd (submit upload insert clientNow data c)) = Some result ->
  status result = "pending" /\
  (forall msg, ~ In (Alert msg) (fst (submit upload insert clientNow data c))) /\
  (exists p d,
      In (CallInsert p) (fst (submit upload insert clientNow data c)) /\
      insert p = Fulfilled d /\
      SupabaseActions.success d = true /\
      id result = SupabaseActions.id d) /\
  (forall f, Validation.file data = Some f ->
     exists u, upload f = Fulfilled u /\ truthy (error u) = false /\
               fileUrl result = Some (url u)).
Proof.
  intros Hnone.
  submit_cases upload insert data; intros Hres; try congruence;
    inversion Hres; subst result; clear Hres; simpl.
  - split; [reflexivity | ].
    split; [intros msg H; log_inversion | ].
    split.
    { eexists; eexists. split; [right; left; reflexivity | ].
      split; [eassumption | ]. split; [assumption | reflexivity]. }
    intros f Hf. inversion Hf; subst f. exists r0. auto.
  - split; [reflexivity | ].
    split; [intros msg H; log_inversion | ].
    split.
    { eexists; eexists. split; [left; reflexivity | ].
      split; [eassumption | ]. split; [assumption | reflexivity]. }
    intros f Hf. discriminate Hf.
Qed.

Lemma success_creates_result
  (upload : Validation.File -> Settled UploadResult)
  (insert : SupabaseActions.ProofSubmission -> Settled SupabaseActions.InsertResult)
  (clientNow : string) (data : Validation.AddProofFormData) (c : Component)
  (p : SupabaseActions.ProofSubmission) (d : SupabaseActions.InsertResult) :
  In (CallInsert p) (fst (submit upload insert clientNow data c)) ->
  insert p = Fulfilled d ->
  SupabaseActions.success d = true ->
  exists result,
    submissionResult (snd (submit upload insert clientNow data c)) = Some result /\
    status result = "pending" /\
    id result = SupabaseActions.id d /\
    values (snd (submit upload insert clientNow data c)) = Validation.mkData None None.
Proof.
  submit_cases upload insert data; intros Hin Hd Hs; log_inversion; try congruence.
  - eexists. split; [reflexivity | ]. simpl. repeat split. congruence.
  - eexists. split; [reflexivity | ]. simpl. repeat split. congruence.
Qed.

(** The order of the calls and the handling of each failure.  One
    submission calls the upload collaborator, when there is a
    file, before the insert collaborator and nothing else before it, and
    after the insert call it can only alert.  An upload that answers with an
    error message (a non-empty string: the code tests the error field by
    truthiness), or whose call is rejected, ends the submission with the
    upload call and one alert that shows the message: the insert is not
    called and the submission result is left as it was.  An insert that
    answers without success, or whose call is rejected, is followed by one
    alert that shows its message, and the submission result is left as it
    was.  A submission result appears only when no alert was raised, the
    upload (if any) answered without error and the insert answered with
    success; it then has status "pending", the identifier the insert
    returned and the uploaded URL; and when the insert answers with success
    the result is set and the form is cleared. *)
Theorem submit_uploads_then_inserts_and_stops_at_first_error
  (upload : Validation.File -> Settled UploadResult)
  (insert : SupabaseActions.ProofSubmission -> Settled SupabaseActions.InsertResult)
  (clientNow : string) (data : Validation.AddProofFormData) (c : Component) :
  let l := fst (submit upload insert clientNow data c) in
  let c' := snd (submit upload insert clientNow data c) in
  (forall (pre post : list Effect) (p : SupabaseActions.ProofSubmission),
      l = pre ++ CallInsert p :: post ->
      pre = match Validation.file data with
            | Some f => [CallUpload f]
            | None => []
            end /\
      (forall e, In e post -> exists msg, e = Alert msg)) /\
  (forall (f : Validation.File) (r : UploadResult) (msg : string),
      Validation.file data = Some f ->
      upload f = Fulfilled r ->
      error r = Some msg ->
      msg <> "" ->
      l = [CallUpload f; Alert ("File upload failed: " ++ msg)%string] /\
      submissionResult c' = submissionResult c) /\
  (forall (f : Validation.File) (e : Thrown),
      Validation.file data = Some f ->
      upload f = Rejected e ->
      l = [CallUpload f; Alert ("Submission failed: " ++ errorText e)%string] /\
      submissionResult c' = submissionResult c) /\
  (forall (p : SupabaseActions.ProofSubmission) (d : SupabaseActions.InsertResult),
      In (CallInsert p) l ->
      insert p = Fulfilled d ->
      SupabaseActions.success d = false ->
      (exists pre,
          l = pre ++ [CallInsert p;
                      Alert ("Database error: " ++ template (SupabaseActions.error d))%string]) /\
      submissionResult c' = submissionResult c) /\
  (forall (p : SupabaseActions.ProofSubmission) (e : Thrown),
      In (CallInsert p) l ->
      insert p = Rejected e ->
      (exists pre,
          l = pre ++ [CallInsert p; Alert ("Submission failed: " ++ errorText e)%string]) /\
      submissionResult c' = submissionResult c) /\
  (forall result : SubmissionResult,
      submissionResult c = None ->
      submissionResult c' = Some result ->
      status result = "pending" /\
      (forall msg, ~ In (Alert msg) l) /\
      (exists p d,
          In (CallInsert p) l /\
          insert p = Fulfilled d /\
          SupabaseActions.success d = true /\
          id result = SupabaseActions.id d) /\
      (forall f, Validation.file data = Some f ->
         exists u, upload f = Fulfilled u /\ truthy (error u) = false /\
                   fileUrl result = Some (url u))) /\
  (forall (p : SupabaseActions.ProofSubmission) (d : SupabaseActions.InsertResult),
      In (CallInsert p) l ->
      insert p = Fulfilled d ->
      SupabaseActions.success d = true ->
      exists result,
        submissionResult c' = Some result /\
        status result = "pending" /\
        id result = SupabaseActions.id d /\
        values c' = Validation.mkData None None).
Proof.
  intros l c'. subst l c'.
  split; [intros pre post p; apply upload_precedes_insert | ].
  split.
  { intros f r msg Hf Hu He Hne.
    rewrite (upload_error_aborts upload insert clientNow data c f r msg Hf Hu He Hne).
    split; reflexivity. }
  split.
  { intros f e Hf Hu.
    rewrite (upload_rejection_aborts upload insert clientNow data c f e Hf Hu).
    split; reflexivity. }
  split.
  { intros p d Hin. now apply insert_error_aborts. }
  split.
  { intros p e Hin. now apply insert_error_aborts. }
  split; [intros result; apply result_only_on_success | ].
  intros p d. apply success_creates_result.
Qed.

(** A photo and a link, submitted against collaborators that fail in each
    of the four ways and against ones that succeed. *)
Lemma submit_uploads_then_inserts_and_stops_at_first_error_witness :
  let data := Validation.mkData (Some "https://example.com/x") (Some Scenario.photo) in
  let c := Scenario.closedForm in
  (fst (submit Scenario.uploadQuota Scenario.insertOk "t" data c)
   = [CallUpload Scenario.photo; Alert "File upload failed: quota exceeded"] /\
   submissionResult (snd (submit Scenario.uploadQuota Scenario.insertOk "t" data c))
   = submissionResult c) /\
  (fst (submit Scenario.uploadOffline Scenario.insertOk "t" data c)
   = [CallUpload Scenario.photo; Alert "Submission failed: network down"] /\
   submissionResult (snd (submit Scenario.uploadOffline Scenario.insertOk "t" data c))
   = submissionResult c) /\
  ((exists pre,
       fst (submit Scenario.uploadOk Scenario.insertDenied "t" data c)
       = pre ++ [CallInsert
                   (SupabaseActions.mkProofSubmission (Some "https://example.com/x")
                      (Some "photo.png") (Some "https://cdn.example.com/proofs/1.png")
                      (Some 204800) (Some "image/png"));
                 Alert "Database error: permission denied"]) /\
   submissionResult (snd (submit Scenario.uploadOk Scenario.insertDenied "t" data c))
   = submissionResult c) /\
  (exists result,
      submissionResult (snd (submit Scenario.uploadOk Scenario.insertOk "t" data c))
      = Some result /\
      status result = "pending" /\ id result = Some 42 /\
      values (snd (submit Scenario.uploadOk Scenario.insertOk "t" data c))
      = Validation.mkData None None).
Proof.
  intros data c.
  pose (p := SupabaseActions.mkProofSubmission (Some "https://example.com/x")
               (Some "photo.png") (Some "https://cdn.example.com/proofs/1.png")
               (Some 204800) (Some "image/png")).
  split.
  { pose proof (submit_uploads_then_inserts_and_stops_at_first_error
                  Scenario.uploadQuota Scenario.insertOk "t" data c) as H.
    cbv zeta in H. destruct H as (_ & H & _).
    apply (H Scenario.photo (mkUploadResult "" (Some "quota exceeded")) "quota exceeded");
      [reflexivity | reflexivity | reflexivity | discriminate]. }
  split.
  { pose proof (submit_uploads_then_inserts_and_stops_at_first_error
                  Scenario.uploadOffline Scenario.insertOk "t" data c) as H.
    cbv zeta in H. destruct H as (_ & _ & H & _).
    apply (H Scenario.photo (ErrorObject "network down")); reflexivity. }
  split.
  { pose proof (submit_uploads_then_inserts_and_stops_at_first_error
                  Scenario.uploadOk Scenario.insertDenied "t" data c) as H.
    cbv zeta in H. destruct H as (_ & _ & _ & H & _).
    apply (H p (SupabaseActions.mkInsertResult false (Some "permission denied") None));
      [vm_compute; right; left; reflexivity | reflexivity | reflexivity]. }
  pose proof (submit_uploads_then_inserts_and_stops_at_first_error
                Scenario.uploadOk Scenario.insertOk "t" data c) as H.
  cbv zeta in H. destruct H as (_ & _ & _ & _ & _ & _ & H).
  apply (H p (SupabaseActions.mkInsertResult true None (Some 42)));
    [vm_compute; right; left; reflexivity | reflexivity | reflexivity].
Defined.

(** C1. A failed upload whose error message is the empty string does not
    stop the submission.  When the storage service answers the upload of a
    file with an error of empty message, [uploadFileToSupabase] answers
    [{ url: "", error: "" }]; [onSubmit] tests that [error] by truthiness,
    takes the answer for a success, and goes on: the insert collaborator is
    called right after the upload, with the empty string as the file's URL,
    no "File upload failed" alert is raised, and when the insert answers
    with success the submission ends after these two calls with a
    submission result of status "pending" whose file URL is the empty
    string. *)
Theorem upload_error_with_empty_message_reaches_insert
  (filePath : Validation.File -> string) (getPublicUrl : string -> string)
  (insert : SupabaseActions.ProofSubmission -> Settled SupabaseActions.InsertResult)
  (clientNow : string) (link : option string) (f : Validation.File) (c : Component) :
  let upload := uploadFileToSupabase filePath Scenario.storageEmptyError getPublicUrl in
  let data := Validation.mkData link (Some f) in
  let p := SupabaseActions.mkProofSubmission link (Some (Validation.name f)) (Some "")
             (Some (Validation.size f)) (Some (Validation.type f)) in
  let l := fst (submit upload insert clientNow data c) in
  let c' := snd (submit upload insert clientNow data c) in
  upload f = Fulfilled (mkUploadResult "" (Some "")) /\
  (exists rest, l = CallUpload f :: CallInsert p :: rest) /\
  (forall msg, ~ In (Alert ("File upload failed: " ++ msg)%string) l) /\
  (forall d : SupabaseActions.InsertResult,
      insert p = Fulfilled d ->
      SupabaseActions.success d = true ->
      l = [CallUpload f; CallInsert p] /\
      submissionResult c'
      = Some (mkSubmissionResult (SupabaseActions.id d) link (Some (Validation.name f))
                (Some "") (Some (Validation.size f)) (Some (Validation.type f))
                clientNow "pending")).
Proof.
  intros upload data p l c'.
  assert (Hl : l = CallUpload f :: CallInsert p ::
                   match insert p with
                   | Fulfilled d =>
                       if SupabaseActions.success d then []
                       else [Alert ("Database error: " ++
                                    template (SupabaseActions.error d))%string]
                   | Rejected e => [Alert ("Submission failed: " ++ errorText e)%string]
                   end).
  { subst l c' upload data p. rewrite submit_unfold. simpl.
    destruct (insert _) as [d | e]; simpl; [ | reflexivity].
    destruct (SupabaseActions.success d); reflexivity. }
  split; [reflexivity | ].
  split; [rewrite Hl; eexists; reflexivity | ].
  split.
  { intros msg. rewrite Hl. simpl. intros [H | [H | H]]; try discriminate H.
    destruct (insert p) as [d | e].
    - destruct (SupabaseActions.success d); simpl in H; [exact H | ].
      destruct H as [H | H]; [discriminate H | exact H].
    - simpl in H. destruct H as [H | H]; [discriminate H | exact H]. }
  intros d Hd Hs. split.
  - rewrite Hl, Hd, Hs. reflexivity.
  - subst l c' upload data. rewrite submit_unfold. simpl.
    fold p. rewrite Hd. simpl. rewrite Hs. reflexivity.
Qed.

(** A photo and a link, the storage service refusing the photo with an
    empty message and the database accepting the row: the row is inserted
    with an empty file URL and the success view is shown. *)
Lemma upload_error_with_empty_message_reaches_insert_witness :
  let upload :=
    uploadFileToSupabase (fun _ => "proofs/1.png") Scenario.storageEmptyError
      (fun _ => "https://cdn.example.com/proofs/1.png") in
  let data := Validation.mkData (Some "https://example.com/x") (Some Scenario.photo) in
  let p := SupabaseActions.mkProofSubmission (Some "https://example.com/x")
             (Some "photo.png") (Some "") (Some 204800) (Some "image/png") in
  fst (submit upload Scenario.insertOk "t" data Scenario.closedForm)
  = [CallUpload Scenario.photo; CallInsert p] /\
  submissionResult (snd (submit upload Scenario.insertOk "t" data Scenario.closedForm))
  = Some (mkSubmissionResult (Some 42) (Some "https://example.com/x") (Some "photo.png")
            (Some "") (Some 204800) (Some "image/png") "t" "pending").
Proof.
  intros upload data p.
  pose proof (upload_error_with_empty_message_reaches_insert
                (fun _ => "proofs/1.png") (fun _ => "https://cdn.example.com/proofs/1.png")
                Scenario.insertOk "t" (Some "https://example.com/x") Scenario.photo
                Scenario.closedForm) as H.
  cbv zeta in H. destruct H as (_ & _ & _ & H).
  apply (H (SupabaseActions.mkInsertResult true None (Some 42))); reflexivity.
Defined.

(** With the upload of [lib/supabase-client] as the collaborator: a storage
    error that carries a message, and an exception of the storage call, both
    end the submission before the insert. *)
Lemma storage_error_aborts
  (filePath : Validation.File -> string)
  (storageUpload : string -> Validation.File -> Settled (option string))
  (getPublicUrl : string -> string)
  (insert : SupabaseActions.ProofSubmission -> Settled SupabaseActions.InsertResult)
  (clientNow : string) (data : Validation.AddProofFormData) (c : Component)
  (f : Validation.File) (msg : string) :
  Validation.file data = Some f ->
  storageUpload (filePath f) f = Fulfilled (Some msg) ->
  msg <> "" ->
  fst (submit (uploadFileToSupabase filePath storageUpload getPublicUrl) insert clientNow data c)
  = [CallUpload f; Alert ("File upload failed: " ++ msg)%string].
Proof.
  intros Hf Hs Hne.
  rewrite (upload_error_aborts _ insert clientNow data c f (mkUploadResult "" (Some msg)) msg);
    try assumption; try reflexivity.
  unfold uploadFileToSupabase. now rewrite Hs.
Qed.

Lemma storage_exception_aborts
  (filePath : Validation.File -> string)
  (storageUpload : string -> Validation.File -> Settled (option string))
  (getPublicUrl : string -> string)
  (insert : SupabaseActions.ProofSubmission -> Settled SupabaseActions.InsertResult)
  (clientNow : string) (data : Validation.AddProofFormData) (c : Component)
  (f : Validation.File) (e : Thrown) :
  Validation.file data = Some f ->
  storageUpload (filePath f) f = Rejected e ->
  fst (submit (uploadFileToSupabase filePath storageUpload getPublicUrl) insert clientNow data c)
  = [CallUpload f; Alert "File upload failed: Failed to upload file"].
Proof.
  intros Hf Hs.
  rewrite (upload_error_aborts _ insert clientNow data c f
             (mkUploadResult "" (Some "Failed to upload file")) "Failed to upload file");
    try assumption; try reflexivity; try discriminate.
  unfold uploadFileToSupabase. now rewrite Hs.
Qed.

Lemma insert_call_arguments
  (upload : Validation.File -> Settled UploadResult)
  (insert : SupabaseActions.ProofSubmission -> Settled SupabaseActions.InsertResult)
  (clientNow : string) (data : Validation.AddProofFormData) (c : Component)
  (p : SupabaseActions.ProofSubmission) :
  In (CallInsert p) (fst (submit upload insert clientNow data c)) ->
  SupabaseActions.proofLink p = Validation.proofLink data /\
  SupabaseActions.fileName p = option_map Validation.name (Validation.file data) /\
  SupabaseActions.fileSize p = option_map Validation.size (Validation.file data) /\
  SupabaseActions.fileType p = option_map Validation.type (Validation.file data) /\
  match Validation.file data with
  | Some f => exists u, upload f = Fulfilled u /\ SupabaseActions.fileUrl p = Some (url u)
  | None => SupabaseActions.fileUrl p = None
  end.
Proof.
  submit_cases upload insert data; intros Hin; log_inversion; simpl;
    repeat split; eauto.
Qed.

Lemma calls_ignore_client_clock
  (upload : Validation.File -> Settled UploadResult)
  (insert : SupabaseActions.ProofSubmission -> Settled SupabaseActions.InsertResult)
  (clientNow otherNow : string) (data : Validation.AddProofFormData) (c : Component) :
  fst (submit upload insert otherNow data c) = fst (submit upload insert clientNow data c).
Proof.
  rewrite (submit_unfold upload insert otherNow).
  submit_cases upload insert data; reflexivity.
Qed.

Lemma insertProofRecord_asks_one_row (serverNow : string)
  (runInsert : SupabaseActions.ProofRow -> Settled SupabaseActions.QueryResponse)
  (p : SupabaseActions.ProofSubmission) :
  SupabaseActions.insertProofRecord serverNow runInsert p
  = SupabaseActions.insertProofRecord serverNow
      (fun _ =>
         runInsert
           (SupabaseActions.mkProofRow
              (SupabaseActions.proofLink p) (SupabaseActions.fileName p)
              (SupabaseActions.fileUrl p) (SupabaseActions.fileSize p)
              (SupabaseActions.fileType p) serverNow "pending"))
      p.
Proof. reflexivity. Qed.

Lemma insertProofRecord_reported (serverNow : string)
  (observe : SupabaseActions.ProofRow -> string) (p : SupabaseActions.ProofSubmission) :
  SupabaseActions.insertProofRecord serverNow (reportingDatabase observe) p
  = SupabaseActions.mkInsertResult false
      (Some (observe
               (SupabaseActions.mkProofRow
                  (SupabaseActions.proofLink p) (SupabaseActions.fileName p)
                  (SupabaseActions.fileUrl p) (SupabaseActions.fileSize p)
                  (SupabaseActions.fileType p) serverNow "pending")))
      None.
Proof. reflexivity. Qed.

(** C10. The row the server action hands to the database carries the time
    the action read as [created_at] and "pending" as [status], and as its
    five other columns the five fields of the [ProofSubmission] it was
    called with.  This is read off the action itself: whatever the database
    is, the action's answer is the one the database gives for that row, and
    a database that reports any observation of the row it was handed
    reports it of that row.  In the pipeline the browser calls the action
    with the link, the name, size and type of the chosen file and the URL
    the upload returned, nothing else; so whatever is observed of the row
    that reaches the database is observed of the row made of those five
    values, the server's time and "pending", and the time read in the
    browser has no influence on the calls made. *)
Theorem created_at_and_status_assigned_by_server_action
  (upload : Validation.File -> Settled UploadResult)
  (clientNow serverNow : string) (data : Validation.AddProofFormData) (c : Component) :
  (forall (runInsert : SupabaseActions.ProofRow -> Settled SupabaseActions.QueryResponse)
          (p : SupabaseActions.ProofSubmission),
      SupabaseActions.insertProofRecord serverNow runInsert p
      = SupabaseActions.insertProofRecord serverNow
          (fun _ =>
             runInsert
               (SupabaseActions.mkProofRow
                  (SupabaseActions.proofLink p) (SupabaseActions.fileName p)
                  (SupabaseActions.fileUrl p) (SupabaseActions.fileSize p)
                  (SupabaseActions.fileType p) serverNow "pending"))
          p) /\
  (forall (observe : SupabaseActions.ProofRow -> string)
          (p : SupabaseActions.ProofSubmission),
      SupabaseActions.insertProofRecord serverNow (reportingDatabase observe) p
      = SupabaseActions.mkInsertResult false
          (Some (observe
                   (SupabaseActions.mkProofRow
                      (SupabaseActions.proofLink p) (SupabaseActions.fileName p)
                      (SupabaseActions.fileUrl p) (SupabaseActions.fileSize p)
                      (SupabaseActions.fileType p) serverNow "pending")))
          None) /\
  (forall (runInsert : SupabaseActions.ProofRow -> Settled SupabaseActions.QueryResponse)
          (p : SupabaseActions.ProofSubmission),
      In (CallInsert p)
         (fst (submit upload (insertViaServerAction serverNow runInsert) clientNow data c)) ->
      SupabaseActions.proofLink p = Validation.proofLink data /\
      SupabaseActions.fileName p = option_map Validation.name (Validation.file data) /\
      SupabaseActions.fileSize p = option_map Validation.size (Validation.file data) /\
      SupabaseActions.fileType p = option_map Validation.type (Validation.file data) /\
      match Validation.file data with
      | Some f => exists u, upload f = Fulfilled u /\ SupabaseActions.fileUrl p = Some (url u)
      | None => SupabaseActions.fileUrl p = None
      end) /\
  (forall (observe : SupabaseActions.ProofRow -> string)
          (p : SupabaseActions.ProofSubmission),
      let l := fst (submit upload
                      (insertViaServerAction serverNow (reportingDatabase observe))
                      clientNow data c) in
      In (CallInsert p) l ->
      exists pre,
        l = pre ++
            [CallInsert p;
             Alert ("Database error: " ++
                    observe
                      (SupabaseActions.mkProofRow
                         (Validation.proofLink data)
                         (option_map Validation.name (Validation.file data))
                         (SupabaseActions.fileUrl p)
                         (option_map Validation.size (Validation.file data))
                         (option_map Validation.type (Validation.file data))
                         serverNow "pending"))%string]) /\
  (forall (runInsert : SupabaseActions.ProofRow -> Settled SupabaseActions.QueryResponse)
          (otherNow : string),
      fst (submit upload (insertViaServerAction serverNow runInsert) otherNow data c)
      = fst (submit upload (insertViaServerAction serverNow runInsert) clientNow data c)).
Proof.
  split; [intros runInsert p; apply insertProofRecord_asks_one_row | ].
  split; [intros observe p; apply insertProofRecord_reported | ].
  split; [intros runInsert p; apply insert_call_arguments | ].
  split; [ | intros runInsert otherNow; apply calls_ignore_client_clock].
  intros observe p l Hin. subst l.
  destruct (insert_call_arguments upload
              (insertViaServerAction serverNow (reportingDatabase observe))
              clientNow data c p Hin) as (E1 & E2 & E3 & E4 & _).
  rewrite <- E1, <- E2, <- E3, <- E4.
  apply (proj1 (insert_error_aborts upload
           (insertViaServerAction serverNow (reportingDatabase observe))
           clientNow data c p Hin)
           (SupabaseActions.mkInsertResult false
              (Some (observe
                       (SupabaseActions.mkProofRow
                          (SupabaseActions.proofLink p) (SupabaseActions.fileName p)
                          (SupabaseActions.fileUrl p) (SupabaseActions.fileSize p)
                          (SupabaseActions.fileType p) serverNow "pending")))
              None));
    reflexivity.
Qed.

(** A photo and a link, submitted at browser time "09:00" to an action
    that reads "09:01": a database that reports the [created_at] it was
    handed reports "09:01", and one that reports the [status] reports
    "pending". *)
Lemma created_at_and_status_assigned_by_server_action_witness :
  let data := Validation.mkData (Some "https://example.com/x") (Some Scenario.photo) in
  let p := SupabaseActions.mkProofSubmission (Some "https://example.com/x")
             (Some "photo.png") (Some "https://cdn.example.com/proofs/1.png")
             (Some 204800) (Some "image/png") in
  (exists pre,
      fst (submit Scenario.uploadOk
             (insertViaServerAction "09:01" (reportingDatabase SupabaseActions.created_at))
             "09:00" data Scenario.closedForm)
      = pre ++ [CallInsert p; Alert "Database error: 09:01"]) /\
  (exists pre,
      fst (submit Scenario.uploadOk
             (insertViaServerAction "09:01" (reportingDatabase SupabaseActions.status))
             "09:00" data Scenario.closedForm)
      = pre ++ [CallInsert p; Alert "Database error: pending"]).
Proof.
  intros data p.
  destruct (created_at_and_status_assigned_by_server_action
              Scenario.uploadOk "09:00" "09:01" data Scenario.closedForm)
    as (_ & _ & _ & H & _).
  split.
  - apply (H SupabaseActions.created_at p). vm_compute. right; left. reflexivity.
  - apply (H SupabaseActions.status p). vm_compute. right; left. reflexivity.
Defined.

End SubmissionFormFacts.

(** ** The file upload zone *)

Module FileUploadZoneFacts.

Import JS.
Import Validation.
Import FileUploadZone.









End FileUploadZoneFacts.

(** ** More on the media viewer *)

Module MediaViewerControlsFacts.

Import JS.
Import MediaViewer.
Import MediaViewerControls.
Import MediaViewerFacts.

Local Open Scope Q_scope.

Ltac minmax_specs :=
  repeat match goal with
    | |- context [Qmin ?a ?b] =>
        lazymatch goal with
        | _ : Qmin a b == _ |- _ => fail
        | _ => destruct (Q.min_spec a b) as [[? ?] | [? ?]]
        end
    | |- context [Qmax ?a ?b] =>
        lazymatch goal with
        | _ : Qmax a b == _ |- _ => fail
        | _ => destruct (Q.max_spec a b) as [[? ?] | [? ?]]
        end
    end.

Lemma zoomInScale_quarter (q : Q) (k : Z) :
  (1 <= k <= 12)%Z -> q == k # 4 ->
  exists k' : Z, (1 <= k' <= 12)%Z /\ zoomInScale q == k' # 4.
Proof.
  intros Hk E. unfold zoomInScale.
  destruct (Q.min_spec (q + (1#4)) 3) as [[Hlt E'] | [Hle E']].
  - exists (k + 1)%Z. rewrite E'. rewrite E in Hlt |- *.
    unfold Qlt, Qeq, Qplus in *; simpl in *. split; lia.
  - exists 12%Z. rewrite E'. split; [lia | reflexivity].
Qed.

Lemma zoomOutScale_quarter (q : Q) (k : Z) :
  (1 <= k <= 12)%Z -> q == k # 4 ->
  exists k' : Z, (1 <= k' <= 12)%Z /\ zoomOutScale q == k' # 4.
Proof.
  intros Hk E. unfold zoomOutScale.
  destruct (Q.max_spec (q - (1#4)) (1#4)) as [[Hlt E'] | [Hle E']].
  - exists 1%Z. rewrite E'. split; [lia | reflexivity].
  - exists (k - 1)%Z. rewrite E'. rewrite E in Hle |- *.
    unfold Qle, Qeq, Qminus, Qplus, Qopp in *; simpl in *. split; lia.
Qed.

Lemma step_quarterScale (fileType : string) (s : ViewerState) (ev : Event) :
  quarterScale s -> quarterScale (step fileType s ev).
Proof.
  intros (k & Hk & E). destruct ev; simpl; try (now exists k).
  - apply (zoomInScale_quarter _ k Hk E).
  - unfold handleZoomOut.
    destruct (Qleb (zoomOutScale (imageScale s)) 1); simpl;
      apply (zoomOutScale_quarter _ k Hk E).
  - exists 4%Z. split; [lia | reflexivity].
  - unfold handleMouseDown.
    destruct (isImage fileType && Qgtb (imageScale s) 1); now exists k.
  - unfold handleMouseMove.
    destruct (isDragging s && Qgtb (imageScale s) 1); now exists k.
  - unfold handleTouchStart.
    destruct (isImage fileType && Qgtb (imageScale s) 1 && (List.length touches =? 1)%nat);
      [ | now exists k].
    destruct (nth_error touches 0); now exists k.
  - unfold handleTouchMove.
    destruct (isDragging s && Qgtb (imageScale s) 1 && (List.length touches =? 1)%nat);
      [ | now exists k].
    destruct (nth_error touches 0); now exists k.
  - exists 4%Z. split; [lia | reflexivity].
Qed.

(** X1. In every state the viewer can reach the scale is a whole number of
    quarters, k/4 with k from 1 to 12: the twelve zoom levels 0.25, 0.5,
    ..., 3. *)
Theorem scale_is_a_quarter_multiple (fileType : string) (evs : list Event) :
  exists k : Z, (1 <= k <= 12)%Z /\ imageScale (run fileType evs initial) == k # 4.
Proof.
  assert (H : forall s, quarterScale s -> quarterScale (run fileType evs s)).
  { induction evs as [ | ev evs IH]; intros s Hs; simpl; [exact Hs | ].
    apply IH. now apply step_quarterScale. }
  apply H. exists 4%Z. split; [lia | reflexivity].
Qed.

Lemma handleZoomOut_scale (s : ViewerState) :
  imageScale (handleZoomOut s) = zoomOutScale (imageScale s).
Proof.
  unfold handleZoomOut. destruct (Qleb (zoomOutScale (imageScale s)) 1); reflexivity.
Qed.

(** X2. In a state the viewer can reach, the zoom-out button is disabled
    exactly when zooming out would leave the scale as it is, and the
    zoom-in button exactly when zooming in would: a button that can be
    pressed always changes the scale. *)
Theorem zoom_button_disabled_iff_zoom_has_no_effect (fileType : string) (s : ViewerState) :
  reachable fileType s ->
  (zoomOutDisabled s = true <-> imageScale (handleZoomOut s) == imageScale s) /\
  (zoomInDisabled s = true <-> imageScale (handleZoomIn s) == imageScale s).
Proof.
  intros Hr. destruct (reachable_invariant fileType s Hr) as ((Hlo & Hhi) & _ & _).
  unfold zoomOutDisabled, zoomInDisabled, Qleb.
  rewrite handleZoomOut_scale, !Qle_bool_iff. simpl.
  unfold zoomOutScale, zoomInScale. split; split; intros H.
  - destruct (Q.max_spec (imageScale s - (1#4)) (1#4)) as [[? E] | [? E]]; rewrite E; lra.
  - destruct (Q.max_spec (imageScale s - (1#4)) (1#4)) as [[? E] | [? E]];
      rewrite E in H; lra.
  - destruct (Q.min_spec (imageScale s + (1#4)) 3) as [[? E] | [? E]]; rewrite E; lra.
  - destruct (Q.min_spec (imageScale s + (1#4)) 3) as [[? E] | [? E]];
      rewrite E in H; lra.
Qed.

(** After eight zoom-ins the zoom-in button is disabled and one more
    zoom-in changes nothing; the zoom-out button is enabled and changes the
    scale. *)
Lemma zoom_button_disabled_iff_zoom_has_no_effect_witness :
  let s := run "image/png" (repeat ZoomIn 8) initial in
  imageScale (handleZoomIn s) == imageScale s /\
  ~ imageScale (handleZoomOut s) == imageScale s.
Proof.
  intros s.
  assert (Hr : reachable "image/png" s) by (exists (repeat ZoomIn 8); reflexivity).
  destruct (zoom_button_disabled_iff_zoom_has_no_effect "image/png" s Hr) as [Hout Hin].
  split.
  - apply Hin. vm_compute. reflexivity.
  - intros H. apply Hout in H. vm_compute in H. discriminate H.
Defined.

Lemma zoomInScale_small (q : Q) : zoomInScale q <= 1 -> q <= 1.
Proof.
  unfold zoomInScale. intros H.
  destruct (Q.min_spec (q + (1#4)) 3) as [[? E] | [? E]]; rewrite E in H; lra.
Qed.

Lemma step_restsAtOrigin (fileType : string) (s : ViewerState) (ev : Event) :
  restsAtOrigin s -> restsAtOrigin (step fileType s ev).
Proof.
  unfold restsAtOrigin. intros H. destruct ev; simpl; auto.
  - intros H'. apply H. now apply zoomInScale_small.
  - unfold handleZoomOut.
    destruct (Qleb (zoomOutScale (imageScale s)) 1) eqn:E; simpl; [reflexivity | ].
    intros H'. apply Qle_bool_iff in H'. unfold Qleb in E. congruence.
  - unfold handleMouseDown.
    destruct (isImage fileType && Qgtb (imageScale s) 1); simpl; exact H.
  - unfold handleMouseMove.
    destruct (isDragging s && Qgtb (imageScale s) 1) eqn:E; simpl; [ | exact H].
    apply andb_true_iff in E. destruct E as [_ E]. apply Qgtb_true in E.
    intros H'. lra.
  - unfold handleTouchStart.
    destruct (isImage fileType && Qgtb (imageScale s) 1 && (List.length touches =? 1)%nat);
      [ | exact H].
    destruct (nth_error touches 0); simpl; exact H.
  - unfold handleTouchMove.
    destruct (isDragging s && Qgtb (imageScale s) 1 && (List.length touches =? 1)%nat) eqn:E;
      [ | exact H].
    destruct (nth_error touches 0); simpl; [ | exact H].
    apply andb_true_iff in E. destruct E as [E _].
    apply andb_true_iff in E. destruct E as [_ E]. apply Qgtb_true in E.
    intros H'. lra.
Qed.

(** X3. Whatever events reach the viewer, the pan offset is exactly (0, 0)
    whenever the scale is at most 1: an image that is not zoomed in is never
    shown off centre, and no stale offset survives zooming back out. *)
Theorem pan_is_origin_when_not_zoomed_in (fileType : string) (evs : list Event) :
  imageScale (run fileType evs initial) <= 1 ->
  panPosition (run fileType evs initial) = mkPoint 0 0.
Proof.
  assert (H : forall s, restsAtOrigin s -> restsAtOrigin (run fileType evs s)).
  { induction evs as [ | ev evs IH]; intros s Hs; simpl; [exact Hs | ].
    apply IH. now apply step_restsAtOrigin. }
  apply H. intros _. reflexivity.
Qed.

(** Zoom in, drag, then zoom out to 1: the offset is back at the origin. *)
Lemma pan_is_origin_when_not_zoomed_in_witness :
  panPosition
    (run "image/png"
       [ZoomIn; MouseDown (mkPoint 10 10); MouseMove (mkPoint 90 40); MouseUp; ZoomOut]
       initial)
  = mkPoint 0 0.
Proof.
  apply (pan_is_origin_when_not_zoomed_in "image/png"
           [ZoomIn; MouseDown (mkPoint 10 10); MouseMove (mkPoint 90 40); MouseUp; ZoomOut]).
  vm_compute. discriminate.
Defined.

(** X4. When the file is not an image, no sequence of events starts a drag
    or moves the pan offset from (0, 0), and the cursor stays "default". *)
Theorem other_media_never_drag_or_pan (fileType : string) (evs : list Event) :
  isImage fileType = false ->
  isDragging (run fileType evs initial) = false /\
  panPosition (run fileType evs initial) = mkPoint 0 0 /\
  getCursorStyle fileType (run fileType evs initial) = "default".
Proof.
  intros Hi.
  assert (H : forall s,
             isDragging s = false /\ panPosition s = mkPoint 0 0 ->
             isDragging (run fileType evs s) = false /\
             panPosition (run fileType evs s) = mkPoint 0 0).
  { induction evs as [ | ev evs IH]; intros s Hs; simpl; [exact Hs | ].
    apply IH. destruct Hs as [Hd Hp].
    destruct ev; simpl; auto.
    - unfold handleZoomOut.
      destruct (Qleb (zoomOutScale (imageScale s)) 1); simpl; auto.
    - unfold handleMouseDown. rewrite Hi. simpl. auto.
    - unfold handleMouseMove. rewrite Hd. simpl. auto.
    - unfold handleTouchStart. rewrite Hi. simpl. auto.
    - unfold handleTouchMove. rewrite Hd. simpl. auto. }
  destruct (H initial (conj eq_refl eq_refl)) as [Hd Hp].
  split; [exact Hd | ]. split; [exact Hp | ].
  unfold getCursorStyle. now rewrite Hi.
Qed.

(** A video: zooming and dragging leave the offset at the origin. *)
Lemma other_media_never_drag_or_pan_witness :
  let s := run "video/mp4"
             [ZoomIn; MouseDown (mkPoint 10 10); MouseMove (mkPoint 90 40)] initial in
  isDragging s = false /\ panPosition s = mkPoint 0 0 /\
  getCursorStyle "video/mp4" s = "default".
Proof.
  intros s.
  apply (other_media_never_drag_or_pan "video/mp4"
           [ZoomIn; MouseDown (mkPoint 10 10); MouseMove (mkPoint 90 40)]).
  reflexivity.
Defined.

Lemma step_asMouse (fileType : string) (s : ViewerState) (ev : Event) :
  step fileType s (asMouse ev) = step fileType s ev.
Proof.
  destruct ev; try reflexivity.
  - destruct touches as [ | touch [ | other rest]]; try reflexivity.
    simpl. unfold handleTouchStart, handleMouseDown. simpl.
    now rewrite andb_true_r.
  - destruct touches as [ | touch [ | other rest]]; try reflexivity.
    simpl. unfold handleTouchMove, handleMouseMove. simpl.
    now rewrite andb_true_r.
Qed.

(** X5. Touch drives the viewer as the mouse does: replacing every
    one-finger touch start, move and end by the mouse down, move and up at
    the same point leaves the final state of any sequence of events
    unchanged; a touch start or move with no finger or with several fingers
    changes nothing. *)
Theorem one_finger_touch_acts_as_mouse (fileType : string) :
  (forall (evs : list Event) (s : ViewerState),
      run fileType (map asMouse evs) s = run fileType evs s) /\
  (forall (touches : list Point) (s : ViewerState),
      List.length touches <> 1%nat ->
      handleTouchStart fileType touches s = s /\ handleTouchMove touches s = s).
Proof.
  split.
  - induction evs as [ | ev evs IH]; intros s; simpl; [reflexivity | ].
    now rewrite step_asMouse, IH.
  - intros touches s Hn. apply Nat.eqb_neq in Hn.
    unfold handleTouchStart, handleTouchMove. now rewrite Hn, !andb_false_r.
Qed.

(** A pinch with two fingers is ignored. *)
Lemma one_finger_touch_acts_as_mouse_witness :
  let s := run "image/png" [ZoomIn] initial in
  handleTouchStart "image/png" [mkPoint 1 1; mkPoint 5 5] s = s /\
  handleTouchMove [mkPoint 1 1; mkPoint 5 5] s = s.
Proof.
  intros s.
  apply (proj2 (one_finger_touch_acts_as_mouse "image/png")).
  discriminate.
Defined.

Lemma constrain_compat (a b : Q) : a == b -> constrain a == constrain b.
Proof.
  intros E. unfold constrain.
  destruct (Q.min_spec maxOffset a) as [[? Ea] | [? Ea]];
    destruct (Q.min_spec maxOffset b) as [[? Eb] | [? Eb]];
    destruct (Q.max_spec (- maxOffset) (Qmin maxOffset a)) as [[? Ma] | [? Ma]];
    destruct (Q.max_spec (- maxOffset) (Qmin maxOffset b)) as [[? Mb] | [? Mb]];
    rewrite Ma, Mb; lra.
Qed.

Lemma constrain_wholePixels (v : Q) (m : Z) :
  v == inject_Z m -> wholePixels (constrain v).
Proof.
  intros E.
  destruct (Z_le_gt_dec m (-200)) as [Lo | Lo].
  - exists (-200)%Z. split; [vm_compute; intros H; discriminate H | ].
    rewrite constrain_below; [reflexivity | ].
    rewrite E. unfold Qle. simpl. lia.
  - destruct (Z_le_gt_dec 200 m) as [Hi | Hi].
    + exists 200%Z. split; [vm_compute; intros H; discriminate H | ].
      rewrite constrain_above; [reflexivity | ].
      rewrite E. unfold Qle. simpl. lia.
    + exists m. split; [lia | ].
      rewrite constrain_inside; [exact E | ].
      rewrite E. unfold Qle. simpl. lia.
Qed.

(** X6. On a zoomed-in image, with the pointer and the pan offset in whole
    pixels, pressing at a point and then moving to another point sets each
    component of the pan offset to its old value plus the displacement of
    the pointer, clamped to [-200, 200]; the new offset is again in whole
    pixels; and pressing and moving to the same point leaves an offset
    within the bounds as it was. *)
Theorem drag_moves_pan_by_pointer_displacement (fileType : string)
  (s : ViewerState) (from to : Point) :
  isImage fileType = true ->
  1 < imageScale s ->
  onPixelGrid from -> onPixelGrid to -> onPixelGrid (panPosition s) ->
  let moved := handleMouseMove to (handleMouseDown fileType from s) in
  x (panPosition moved) == constrain (x (panPosition s) + (x to - x from)) /\
  y (panPosition moved) == constrain (y (panPosition s) + (y to - y from)) /\
  onPixelGrid (panPosition moved) /\
  (panInBounds s ->
   x (panPosition (handleMouseMove from (handleMouseDown fileType from s)))
   == x (panPosition s) /\
   y (panPosition (handleMouseMove from (handleMouseDown fileType from s)))
   == y (panPosition s)).
Proof.
  intros Hi Hs [(fx & _ & Efx) (fy & _ & Efy)] [(tx & _ & Etx) (ty & _ & Ety)]
    [(px & _ & Epx) (py & _ & Epy)] moved.
  assert (Hm : forall p : Point,
             panPosition (handleMouseMove p (handleMouseDown fileType from s))
             = mkPoint (constrain (x p - (x from - x (panPosition s))))
                       (constrain (y p - (y from - y (panPosition s))))).
  { intros p. unfold handleMouseDown. rewrite Hi, (proj2 (Qgtb_true _ _) Hs). simpl.
    unfold handleMouseMove. simpl. rewrite (proj2 (Qgtb_true _ _) Hs). reflexivity. }
  subst moved. rewrite !Hm. simpl.
  split; [apply constrain_compat; ring | ].
  split; [apply constrain_compat; ring | ].
  split.
  { split; simpl.
    - apply (constrain_wholePixels _ (tx - (fx - px))).
      rewrite Etx, Efx, Epx. unfold Qeq, Qminus, Qplus, Qopp, inject_Z. simpl. lia.
    - apply (constrain_wholePixels _ (ty - (fy - py))).
      rewrite Ety, Efy, Epy. unfold Qeq, Qminus, Qplus, Qopp, inject_Z. simpl. lia. }
  intros [Hx Hy]. split.
  - rewrite <- (constrain_inside _ Hx) at 2. apply constrain_compat. ring.
  - rewrite <- (constrain_inside _ Hy) at 2. apply constrain_compat. ring.
Qed.

(** At scale 1.5 with offset (0, 0): a drag by (30, -500) ends at
    (30, -200). *)
Lemma drag_moves_pan_by_pointer_displacement_witness :
  let s := run "image/png" [ZoomIn; ZoomIn] initial in
  let moved := handleMouseMove (mkPoint 130 (-400)) (handleMouseDown "image/png" (mkPoint 100 100) s) in
  x (panPosition moved) == 30 /\ y (panPosition moved) == - (200).
Proof.
  intros s moved.
  destruct (drag_moves_pan_by_pointer_displacement "image/png" s
              (mkPoint 100 100) (mkPoint 130 (-400))) as (Hx & Hy & _).
  - reflexivity.
  - vm_compute. reflexivity.
  - split; exists 100%Z; (split; [vm_compute; intros H; discriminate H | vm_compute; reflexivity]).
  - split; [exists 130%Z | exists (-400)%Z];
      (split; [vm_compute; intros H; discriminate H | vm_compute; reflexivity]).
  - split; exists 0%Z; (split; [vm_compute; intros H; discriminate H | vm_compute; reflexivity]).
  - split.
    + apply (Qeq_trans _ _ _ Hx). vm_compute. reflexivity.
    + apply (Qeq_trans _ _ _ Hy). vm_compute. reflexivity.
Defined.

Lemma step_alike (fileType : string) (a b : ViewerState) (ev : Event) :
  alike a b -> alike (step fileType a ev) (step fileType b ev).
Proof.
  destruct a as [sc rot pan drag anchorA load].
  destruct b as [sc' rot' pan' drag' anchorB load'].
  unfold alike, sameView. simpl.
  intros ((-> & -> & -> & -> & ->) & Hd).
  destruct drag'; [rewrite (Hd eq_refl) in * | ];
    destruct ev; simpl;
    unfold handleZoomIn, handleZoomOut, handleRotate, handleReset, handleMouseDown,
      handleMouseMove, handleMouseUp, handleMouseLeave, handleTouchStart, handleTouchMove,
      handleTouchEnd, handleClose, resetImageControls, handleMediaSettled; simpl;
    repeat match goal with
      | |- context [if ?c then _ else _] => destruct c
      | |- context [match ?l with [] => _ | _ :: _ => _ end] => destruct l
      end;
    simpl; repeat split; auto; intros; discriminate.
Qed.

(** X7. Closing the viewer puts back everything it shows: from any state,
    after a close, every sequence of events leads to the same scale,
    rotation, pan offset, dragging flag and loading flag as from a freshly
    mounted viewer.  (The drag anchor is not reset, and is overwritten
    before it is read.) *)
Theorem close_restores_the_mounted_view (fileType : string) (s : ViewerState)
  (evs : list Event) :
  sameView (run fileType evs (handleClose s)) (run fileType evs initial).
Proof.
  assert (H : forall a b, alike a b -> alike (run fileType evs a) (run fileType evs b)).
  { induction evs as [ | ev evs IH]; intros a b Hab; simpl; [exact Hab | ].
    apply IH. now apply step_alike. }
  apply H. split.
  - repeat split.
  - simpl. discriminate.
Qed.

Lemma rotateBy90_turn (n : nat) :
  rotateBy90 (90 * Z.of_nat (n mod 4)) = (90 * Z.of_nat (S n mod 4))%Z.
Proof.
  replace (S n) with (n + 1)%nat by lia.
  rewrite (Nat.Div0.add_mod n 1 4).
  pose proof (Nat.mod_upper_bound n 4 ltac:(lia)) as Hm.
  destruct (n mod 4)%nat as [ | [ | [ | [ | m]]]]; try lia; reflexivity.
Qed.

(** X8. The rotation depends only on how many times rotate was pressed
    since the view was last reset or closed: it is 90 degrees times that
    number modulo 4, whatever zooming, dragging and touching happened in
    between. *)
Theorem rotation_counts_quarter_turns (fileType : string) (evs : list Event) :
  imageRotation (run fileType evs initial)
  = (90 * Z.of_nat (quarterTurns evs mod 4))%Z.
Proof.
  unfold quarterTurns.
  assert (H : forall (s : ViewerState) (n : nat),
             imageRotation s = (90 * Z.of_nat (n mod 4))%Z ->
             imageRotation (run fileType evs s)
             = (90 * Z.of_nat (fold_left countTurn evs n mod 4))%Z).
  { induction evs as [ | ev evs IH]; intros s n Hs; simpl; [exact Hs | ].
    apply IH. destruct ev; simpl; try exact Hs; try reflexivity.
    - unfold handleZoomOut.
      destruct (Qleb (zoomOutScale (imageScale s)) 1); simpl; exact Hs.
    - rewrite Hs. apply rotateBy90_turn.
    - unfold handleMouseDown.
      destruct (isImage fileType && Qgtb (imageScale s) 1); simpl; exact Hs.
    - unfold handleMouseMove.
      destruct (isDragging s && Qgtb (imageScale s) 1); simpl; exact Hs.
    - unfold handleTouchStart.
      destruct (isImage fileType && Qgtb (imageScale s) 1 && (List.length touches =? 1)%nat);
        [ | exact Hs].
      destruct (nth_error touches 0); simpl; exact Hs.
    - unfold handleTouchMove.
      destruct (isDragging s && Qgtb (imageScale s) 1 && (List.length touches =? 1)%nat);
        [ | exact Hs].
      destruct (nth_error touches 0); simpl; exact Hs. }
  apply (H initial O). reflexivity.
Qed.

(** X9. Zooming in and then out returns to the scale one started from
    whenever that scale is at most 2.75, and keeps the rotation; it also
    keeps the pan offset when the image was zoomed in.  Zooming out and
    then in returns to the scale whenever it is at least 0.5.  At the two
    ends the round trip does not close: from 3 one lands on 2.75 and from
    0.25 on 0.5. *)
Theorem zoom_in_then_out_round_trip (s : ViewerState) :
  ((1#4) <= imageScale s <= (11#4) ->
   imageScale (handleZoomOut (handleZoomIn s)) == imageScale s /\
   imageRotation (handleZoomOut (handleZoomIn s)) = imageRotation s /\
   (1 < imageScale s -> panPosition (handleZoomOut (handleZoomIn s)) = panPosition s)) /\
  ((1#2) <= imageScale s <= 3 ->
   imageScale (handleZoomIn (handleZoomOut s)) == imageScale s) /\
  (imageScale s == 3 -> imageScale (handleZoomOut (handleZoomIn s)) == (11#4)) /\
  (imageScale s == (1#4) -> imageScale (handleZoomIn (handleZoomOut s)) == (1#2)).
Proof.
  assert (Hoi : imageScale (handleZoomOut (handleZoomIn s))
                = Qmax (Qmin (imageScale s + (1#4)) 3 - (1#4)) (1#4)).
  { rewrite handleZoomOut_scale. reflexivity. }
  assert (Hio : imageScale (handleZoomIn (handleZoomOut s))
                = Qmin (Qmax (imageScale s - (1#4)) (1#4) + (1#4)) 3).
  { change (imageScale (handleZoomIn (handleZoomOut s)))
      with (zoomInScale (imageScale (handleZoomOut s))).
    rewrite handleZoomOut_scale. reflexivity. }
  rewrite Hoi, Hio.
  destruct (Q.min_spec (imageScale s + (1#4)) 3) as [[? E1] | [? E1]];
    destruct (Q.max_spec (Qmin (imageScale s + (1#4)) 3 - (1#4)) (1#4)) as [[? E2] | [? E2]];
    destruct (Q.max_spec (imageScale s - (1#4)) (1#4)) as [[? E3] | [? E3]];
    destruct (Q.min_spec (Qmax (imageScale s - (1#4)) (1#4) + (1#4)) 3) as [[? E4] | [? E4]];
    (split; [intros [Hlo Hhi]; split; [lra | split; [ | intros Hz]] | split; [ | split]; intros; lra]).
  all: unfold handleZoomOut, handleZoomIn, zoomOutScale, zoomInScale; simpl;
    try (destruct (Qleb _ 1); reflexivity).
  all: destruct (Qleb (Qmax (Qmin (imageScale s + (1#4)) 3 - (1#4)) (1#4)) 1) eqn:B;
    [ | reflexivity];
    unfold Qleb in B; apply Qle_bool_iff in B; lra.
Qed.

(** From scale 1.5 with a dragged offset: zoom in, then out, and scale and
    offset are as before. *)
Lemma zoom_in_then_out_round_trip_witness :
  let s := run "image/png"
             [ZoomIn; ZoomIn; MouseDown (mkPoint 0 0); MouseMove (mkPoint 40 25)] initial in
  imageScale (handleZoomOut (handleZoomIn s)) == imageScale s /\
  panPosition (handleZoomOut (handleZoomIn s)) = panPosition s.
Proof.
  intros s.
  destruct (proj1 (zoom_in_then_out_round_trip s)) as (Hs & _ & Hp).
  - vm_compute. split; discriminate.
  - split; [exact Hs | ]. apply Hp. vm_compute. reflexivity.
Defined.

End MediaViewerControlsFacts.

(** ** More on the validation schema *)

Module ValidationMoreFacts.

Import JS.
Import Validation.
Import FileSchema.
Import ValidationFacts.

Lemma fileSchema_kinds (f : File) :
  errorKinds (fileSchema f) = if typeCheck f then [] else [UnsupportedFileType].
Proof.
  unfold fileSchema, refine. rewrite errorKinds_app. simpl.
  destruct (typeCheck f); destruct (sizeCheck f); reflexivity.
Qed.

Lemma sizeCheck_limit (f : File) :
  sizeCheck f = negb (size f >? (if isImageFile f then 1048576 else 5242880)).
Proof.
  unfold sizeCheck, isImageFile. rewrite Z.gtb_ltb, Z.ltb_antisym, negb_involutive.
  reflexivity.
Qed.

Lemma fileCheck_split (link : option string) (f : File) :
  fileCheck (mkData link (Some f)) = typeCheck f && sizeCheck f.
Proof.
  unfold fileCheck, typeCheck, sizeCheck. simpl.
  destruct (startsWith (type f) "image/"); destruct (startsWith (type f) "video/");
    reflexivity.
Qed.

(** X10. The stand-alone file schema accepts exactly the files the file
    refinement of the form schema accepts.  It differs in what it reports.
    It checks type and size independently, the size of a file that is not an
    image against the 5 MiB limit, so a file of unsupported type above
    5 MiB raises two issues, where the form schema reports the type alone.
    And its size issue carries the message "Invalid input", not the
    "File size must be less than ..." text its message function builds: an
    image or video above its limit, which the form schema reports as
    [FileTooLarge], raises here one issue that stands for no kind of
    failure. *)
Theorem file_schema_agrees_with_form_schema (isUrl : string -> bool)
  (link : option string) (f : File) :
  (fileSchema f = [] <-> fileCheck (mkData link (Some f)) = true) /\
  fileSchema f
  = (if typeCheck f then [] else [mkIssue "File must be an image or video" []])
    ++ (if size f >? (if isImageFile f then 1048576 else 5242880)
        then [mkIssue "Invalid input" []] else []) /\
  errorKinds (fileSchema f) = (if typeCheck f then [] else [UnsupportedFileType]) /\
  (typeCheck f = true -> size f > (if isImageFile f then 1048576 else 5242880) ->
   fileSchema f = [mkIssue "Invalid input" []] /\
   errorKinds (fileSchema f) = [] /\
   yields isUrl (mkData link (Some f)) FileTooLarge) /\
  (isImageFile f = false -> isVideoFile f = false -> size f > 5242880 ->
   fileSchema f = [mkIssue "File must be an image or video" []; mkIssue "Invalid input" []] /\
   (forall k, yields isUrl (mkData link (Some f)) k ->
              k = UnsupportedFileType \/ k = InvalidUrl)).
Proof.
  assert (Hshape : fileSchema f
            = (if typeCheck f then [] else [mkIssue "File must be an image or video" []])
              ++ (if size f >? (if isImageFile f then 1048576 else 5242880)
                  then [mkIssue "Invalid input" []] else [])).
  { unfold fileSchema, refine. simpl. rewrite sizeCheck_limit.
    destruct (size f >? _); reflexivity. }
  split; [ | split; [exact Hshape | split; [apply fileSchema_kinds | split]]].
  - rewrite fileCheck_split. unfold fileSchema, refine. simpl.
    destruct (typeCheck f); destruct (sizeCheck f); simpl; split; intros H;
      try reflexivity; discriminate H.
  - intros T Hs. rewrite fileSchema_kinds, Hshape, T.
    destruct (Z.gtb_spec (size f) (if isImageFile f then 1048576 else 5242880)) as [G | G];
      [ | lia].
    split; [reflexivity | split; [reflexivity | ]].
    apply yields_file_kind; [now right | ].
    unfold typeCheck in T. unfold fileFailure.
    fold (isImageFile f) in T. fold (isVideoFile f) in T.
    apply orb_true_iff in T.
    destruct (isImageFile f) eqn:I; simpl.
    + change oneMB with 1048576.
      destruct (Z.gtb_spec (size f) 1048576); [reflexivity | lia].
    + destruct T as [T | T]; [discriminate T | ]. rewrite T. simpl.
      change fiveMB with 5242880.
      destruct (Z.gtb_spec (size f) 5242880); [reflexivity | lia].
  - intros I V Hs. split.
    + rewrite Hshape. unfold typeCheck.
      fold (isImageFile f). fold (isVideoFile f). rewrite I, V. simpl.
      destruct (Z.gtb_spec (size f) 5242880); [reflexivity | lia].
    + intros k Hk. apply yields_unfold in Hk. simpl in Hk.
      destruct Hk as [[E _] | [[_ H] | (f' & Hf & Hk)]].
      * now right.
      * unfold linkOrFileCheck in H. simpl in H. rewrite orb_true_r in H. discriminate H.
      * inversion Hf; subst f'. rewrite (fileFailure_other f I V) in Hk.
        inversion Hk. now left.
Qed.

(** An executable of 6 MB: two issues from the file schema, one failure
    from the form schema. *)
Lemma file_schema_agrees_with_form_schema_witness :
  let f := mkFile "setup.exe" "application/octet-stream" 6000000 in
  fileSchema f = [mkIssue "File must be an image or video" []; mkIssue "Invalid input" []] /\
  validate (fun _ => true) (mkData None (Some f)) = [UnsupportedFileType].
Proof.
  intros f. split; [ | reflexivity].
  destruct (file_schema_agrees_with_form_schema (fun _ => true) None f)
    as (_ & _ & _ & _ & H).
  apply H; reflexivity.
Defined.

(** X11. Every issue the form schema raises has a non-empty message, sits
    on one of the paths [proofLink], [root] and [file], and stands for one
    of the four kinds of failure: the two branches of the message function
    that return an empty message are never used. *)
Theorem every_issue_has_message_path_and_kind (isUrl : string -> bool)
  (data : AddProofFormData) (i : ZodIssue) :
  In i (addProofSchema isUrl data) ->
  message i <> "" /\
  In (path i) [["proofLink"]; ["root"]; ["file"]] /\
  errorKind i <> None.
Proof.
  unfold addProofSchema, refine, objectSchema. rewrite !in_app_iff.
  intros [[H | H] | H].
  - destruct (proofLinkCheck isUrl (proofLink data)); [destruct H | ].
    destruct H as [<- | []]. repeat split; simpl; auto; discriminate.
  - destruct (linkOrFileCheck data); [destruct H | ].
    destruct H as [<- | []]. repeat split; simpl; auto; discriminate.
  - destruct (fileCheck data) eqn:C; [destruct H | ].
    destruct H as [<- | []].
    unfold fileCheck in C. unfold fileIssue.
    destruct (file data) as [f | ]; [ | discriminate C].
    destruct (negb (startsWith (type f) "image/") && negb (startsWith (type f) "video/")).
    + repeat split; simpl; auto; discriminate.
    + rewrite Z.gtb_ltb, Z.ltb_antisym, C. simpl.
      destruct (startsWith (type f) "image/"); repeat split; simpl; auto; discriminate.
Qed.

(** The one issue of an empty form. *)
Lemma every_issue_has_message_path_and_kind_witness :
  let i := mkIssue "Please provide either a proof link or upload a file" ["root"] in
  message i <> "" /\ In (path i) [["proofLink"]; ["root"]; ["file"]] /\ errorKind i <> None.
Proof.
  intros i.
  apply (every_issue_has_message_path_and_kind (fun _ => true) (mkData None None) i).
  left. reflexivity.
Defined.

Lemma proofLinkCheck_false (isUrl : string -> bool) (link : option string) :
  proofLinkCheck isUrl link = false <->
  exists l : string, link = Some l /\ l <> "" /\ isUrl l = false.
Proof.
  unfold proofLinkCheck. destruct link as [[ | c l] | ]; simpl; split.
  - discriminate.
  - intros (l & E & Hne & _). inversion E. congruence.
  - intros H. exists (String c l). repeat split; [discriminate | exact H].
  - intros (l' & E & _ & H). inversion E. subst l'. exact H.
  - discriminate.
  - intros (l & E & _). discriminate E.
Qed.

(** X12. Validation reports [InvalidUrl] exactly when the link is a
    non-empty string that is not a well-formed URL; an absent or empty link
    is never an invalid URL, and the file has no part in it. *)
Theorem invalid_url_iff_nonempty_link_not_url (isUrl : string -> bool)
  (data : AddProofFormData) :
  yields isUrl data InvalidUrl <->
  exists l : string, proofLink data = Some l /\ l <> "" /\ isUrl l = false.
Proof.
  rewrite yields_unfold, <- proofLinkCheck_false. split.
  - intros [[_ H] | [[E _] | (f & _ & Hk)]]; [exact H | discriminate E | ].
    unfold fileFailure in Hk.
    destruct (negb (isImageFile f) && negb (isVideoFile f)); [discriminate Hk | ].
    destruct (size f >? (if isImageFile f then oneMB else fiveMB)); discriminate Hk.
  - intros H. left. now split.
Qed.

Lemma fileCheck_true (data : AddProofFormData) :
  fileCheck data = true <->
  forall f : File, file data = Some f ->
    (isImageFile f = true /\ size f <= 1048576) \/
    (isVideoFile f = true /\ size f <= 5242880).
Proof.
  unfold fileCheck, isImageFile, isVideoFile.
  destruct (file data) as [f | ]; [ | split; [intros _ f Hf; discriminate Hf | reflexivity]].
  destruct (startsWith (type f) "image/") eqn:I.
  - simpl. rewrite Z.leb_le. unfold oneMB. split.
    + intros H f' Hf. inversion Hf; subst f'. rewrite I. left. split; [reflexivity | lia].
    + intros H. destruct (H f eq_refl) as [[_ L] | [V _]]; [lia | ].
      apply image_is_not_video in I. congruence.
  - destruct (startsWith (type f) "video/") eqn:V; simpl.
    + rewrite Z.leb_le. unfold fiveMB. split.
      * intros H f' Hf. inversion Hf; subst f'. rewrite V. right. split; [reflexivity | lia].
      * intros H. destruct (H f eq_refl) as [[I' _] | [_ L]]; [congruence | lia].
    + split; [discriminate | ].
      intros H. destruct (H f eq_refl) as [[I' _] | [V' _]]; congruence.
Qed.

(** X13. The form value is valid, that is the schema raises no issue,
    exactly when three things hold: the link, if not empty, is a
    well-formed URL; a non-empty link or a file is given; and the file, if
    given, is an image of at most 1,048,576 bytes or a video of at most
    5,242,880 bytes. *)
Theorem valid_iff_link_and_file_acceptable (isUrl : string -> bool)
  (data : AddProofFormData) :
  addProofSchema isUrl data = [] <->
  (forall l : string, proofLink data = Some l -> l <> "" -> isUrl l = true) /\
  ((exists l : string, proofLink data = Some l /\ l <> "") \/ file data <> None) /\
  (forall f : File, file data = Some f ->
     (isImageFile f = true /\ size f <= 1048576) \/
     (isVideoFile f = true /\ size f <= 5242880)).
Proof.
  rewrite <- fileCheck_true.
  assert (Hl : proofLinkCheck isUrl (proofLink data) = true <->
               forall l : string, proofLink data = Some l -> l <> "" -> isUrl l = true).
  { split.
    - intros H l E Hne. destruct (isUrl l) eqn:U; [reflexivity | ].
      assert (F : proofLinkCheck isUrl (proofLink data) = false)
        by (apply proofLinkCheck_false; eauto).
      congruence.
    - intros H. destruct (proofLinkCheck isUrl (proofLink data)) eqn:C; [reflexivity | ].
      apply proofLinkCheck_false in C. destruct C as (l & E & Hne & U).
      rewrite (H l E Hne) in U. discriminate U. }
  assert (Hr : linkOrFileCheck data = true <->
               (exists l : string, proofLink data = Some l /\ l <> "") \/ file data <> None).
  { split.
    - unfold linkOrFileCheck.
      destruct (file data) as [f | ]; [intros _; right; discriminate | ].
      destruct (proofLink data) as [[ | c l] | ]; simpl; intros H; try discriminate H.
      left. exists (String c l). split; [reflexivity | discriminate].
    - intros H. destruct (linkOrFileCheck data) eqn:C; [reflexivity | ].
      apply linkOrFileCheck_false in C. destruct C as [[E | E] F].
      + destruct H as [(l & E' & _) | H]; congruence.
      + destruct H as [(l & E' & Hne) | H]; congruence. }
  rewrite <- Hl, <- Hr.
  unfold addProofSchema, refine, objectSchema.
  destruct (proofLinkCheck isUrl (proofLink data));
    destruct (linkOrFileCheck data); destruct (fileCheck data); simpl;
    split; try discriminate; try tauto; intros (A & B & C); discriminate.
Qed.

Lemma fileFailure_kind (f : File) (k : ValidationError) :
  fileFailure f = Some k -> k = UnsupportedFileType \/ k = FileTooLarge.
Proof.
  unfold fileFailure.
  destruct (negb (isImageFile f) && negb (isVideoFile f)); [intros H; inversion H; auto | ].
  destruct (size f >? (if isImageFile f then oneMB else fiveMB)); intros H; inversion H; auto.
Qed.

(** X14. Validation never reports a failure twice and never more than two
    at once, one for the link and one for the file.  [MissingInput] comes
    alone: never with [InvalidUrl] and never with a file failure; and a
    file is never both of unsupported type and too large. *)
Theorem failures_are_few_and_exclusive (isUrl : string -> bool)
  (data : AddProofFormData) :
  NoDup (validate isUrl data) /\
  (List.length (validate isUrl data) <= 2)%nat /\
  (yields isUrl data MissingInput -> validate isUrl data = [MissingInput]) /\
  ~ (yields isUrl data UnsupportedFileType /\ yields isUrl data FileTooLarge).
Proof.
  unfold yields. rewrite validate_unfold.
  destruct data as [link file]. simpl.
  assert (Hff : forall f k, fileFailure f = Some k ->
                            k = UnsupportedFileType \/ k = FileTooLarge)
    by apply fileFailure_kind.
  destruct link as [[ | c l] | ]; destruct file as [f | ];
    unfold proofLinkCheck, linkOrFileCheck; simpl;
    try destruct (isUrl (String c l)); simpl;
    try (destruct (fileFailure f) as [k | ] eqn:F;
         [destruct (Hff f k F); subst k | ]);
    simpl;
    (split; [repeat constructor; simpl; intuition discriminate | ]);
    (split; [lia | ]);
    (split; [intros H; try reflexivity; intuition discriminate | ]);
    intuition discriminate.
Qed.

End ValidationMoreFacts.

(** ** More on the file upload zone *)

Module FileUploadZoneMoreFacts.

Import JS.
Import Validation.
Import FileUploadZone.
Import ValidationFacts.
Import FileUploadZoneFacts.

Lemma canDrop_first (item : DropResult) :
  canDrop item = true <->
  exists f rest, files item = f :: rest /\ (isImageFile f = true \/ isVideoFile f = true).
Proof.
  unfold canDrop, isImageFile, isVideoFile.
  destruct (files item) as [ | f rest]; simpl.
  - split; [discriminate | intros (f & rest & E & _); discriminate E].
  - rewrite orb_true_iff. split.
    + intros H. exists f, rest. auto.
    + intros (f' & rest' & E & H). inversion E; subst. exact H.
Qed.

Lemma drop_oversized (item : DropResult) (f : File) (rest : list File) :
  files item = f :: rest ->
  (isImageFile f = true -> size f > 1048576 ->
   drop item = [alert "File size must be less than 1MB"]) /\
  (isVideoFile f = true -> size f > 5242880 ->
   drop item = [alert "File size must be less than 5MB"]).
Proof.
  intros E. unfold drop, canDrop, handleFileDrop, isImageFile, isVideoFile.
  rewrite E. simpl. split.
  - intros I L. rewrite I. simpl.
    destruct (Z.gtb_spec (size f) 1048576); [reflexivity | lia].
  - intros V L. rewrite V.
    destruct (startsWith (type f) "image/") eqn:I.
    + apply image_is_not_video in I. congruence.
    + simpl. destruct (Z.gtb_spec (size f) 5242880); [reflexivity | lia].
Qed.

(** X15. When a payload is dropped, the drop target admits it exactly
    when its first file is an image or a video, whatever its size, and a
    payload it does not admit has no effect at all.  So an oversized image
    or video is admitted and turned down by the handler, with the alert
    "File size must be less than 1MB" for an image and "... 5MB" for a
    video.  These are the only alerts a drop can raise: the alert about the
    file type is never shown, because the handler is not called for a
    payload the target did not admit. *)
Theorem drop_admits_by_type_and_alerts_on_size (item : DropResult) :
  (canDrop item = true <->
   exists f rest, files item = f :: rest /\ (isImageFile f = true \/ isVideoFile f = true)) /\
  (canDrop item = false -> drop item = []) /\
  (forall f rest, files item = f :: rest ->
     isImageFile f = true -> size f > 1048576 ->
     canDrop item = true /\
     drop item = [alert "File size must be less than 1MB"]) /\
  (forall f rest, files item = f :: rest ->
     isVideoFile f = true -> size f > 5242880 ->
     canDrop item = true /\
     drop item = [alert "File size must be less than 5MB"]) /\
  (forall msg, In (alert msg) (drop item) ->
     msg = "File size must be less than 1MB" \/ msg = "File size must be less than 5MB").
Proof.
  split; [apply canDrop_first | ].
  split; [intros H; unfold drop; rewrite H; reflexivity | ].
  split; [ | split].
  - intros f rest E I L. split.
    + apply (proj2 (canDrop_first item)). eauto.
    + now apply (drop_oversized item f rest E).
  - intros f rest E V L. split.
    + apply (proj2 (canDrop_first item)). eauto.
    + now apply (drop_oversized item f rest E).
  - intros msg. unfold drop, canDrop, handleFileDrop.
    destruct (files item) as [ | f rest]; simpl; [intros [] | ].
    destruct (startsWith (type f) "image/"); destruct (startsWith (type f) "video/"); simpl;
      try (intros []);
      match goal with |- context [size f >? ?m] => destruct (size f >? m) end; simpl;
      intros [H | []]; inversion H; auto.
Qed.

(** A 2 MiB photo is admitted by the drop target and turned down by the
    handler. *)
Lemma drop_admits_by_type_and_alerts_on_size_witness :
  canDrop (mkDrop [Scenario.bigPhoto]) = true /\
  drop (mkDrop [Scenario.bigPhoto]) = [alert "File size must be less than 1MB"].
Proof.
  destruct (drop_admits_by_type_and_alerts_on_size (mkDrop [Scenario.bigPhoto]))
    as (_ & _ & H & _).
  apply (H Scenario.bigPhoto []); reflexivity.
Defined.




End FileUploadZoneMoreFacts.

(** ** More on the submit pipeline *)

Module SubmissionFormMoreFacts.

Import JS.
Import SupabaseClient.
Import SubmissionForm.
Import SubmissionFormView.
Import SubmissionFormFacts.

(** X17. Whatever the collaborators do, answer or reject, the submit
    handler itself never throws, and when it is done the submitting flag is
    off again, the dialog and viewer flags are as they were, and the log of
    effects has only grown. *)
Theorem submit_never_throws_and_ends_idle
  (upload : Validation.File -> Settled UploadResult)
  (insert : SupabaseActions.ProofSubmission -> Settled SupabaseActions.InsertResult)
  (clientNow : string) (data : Validation.AddProofFormData) (w : World) :
  let done := onSubmit upload insert clientNow data w in
  (forall e : Thrown, fst done <> Throw e) /\
  isSubmitting (component (snd done)) = false /\
  isOpen (component (snd done)) = isOpen (component w) /\
  showMediaViewer (component (snd done)) = showMediaViewer (component w) /\
  exists more : list Effect, log (snd done) = log w ++ more.
Proof.
  unfold onSubmit, tryCatchFinally, bind, await, when, alert, emit,
    setIsSubmitting, setSubmissionResult, reset, update, ret, returnNow, errorText.
  cbn zeta. simpl.
  destruct (Validation.file data) as [f | ]; simpl.
  - destruct (upload f) as [r | e]; simpl.
    + destruct (truthy (error r)) eqn:E; simpl; [rewrite E; simpl | ].
      * repeat split; try discriminate. rewrite <- app_assoc. eauto.
      * match goal with |- context [insert ?p] => destruct (insert p) as [d | e] end; simpl.
        -- destruct (SupabaseActions.success d); simpl;
             repeat split; try discriminate; rewrite <- ?app_assoc; eauto.
        -- repeat split; try discriminate. rewrite <- !app_assoc. eauto.
    + repeat split; try discriminate. rewrite <- app_assoc. eauto.
  - match goal with |- context [insert ?p] => destruct (insert p) as [d | e] end; simpl.
    + destruct (SupabaseActions.success d); simpl;
        repeat split; try discriminate; rewrite <- ?app_assoc; eauto.
    + repeat split; try discriminate. rewrite <- app_assoc. eauto.
Qed.

(** X18. A submission ends in one of two ways.  Either it raised an alert,
    as its last effect, and then the component is as before it (the form
    keeps its values for another try, the result is untouched); or it
    raised none, and then a result with status "pending", stamped with the
    browser's time, is set and the form is cleared. *)
Theorem submit_fails_keeping_form_or_succeeds_clearing_it
  (upload : Validation.File -> Settled UploadResult)
  (insert : SupabaseActions.ProofSubmission -> Settled SupabaseActions.InsertResult)
  (clientNow : string) (data : Validation.AddProofFormData) (c : Component) :
  let l := fst (submit upload insert clientNow data c) in
  let c' := snd (submit upload insert clientNow data c) in
  (exists (calls : list Effect) (msg : string),
      l = calls ++ [Alert msg] /\
      (forall m, ~ In (Alert m) calls) /\
      c' = mkComponent (isOpen c) (submissionResult c) false (showMediaViewer c) (values c))
  \/
  ((forall m, ~ In (Alert m) l) /\
   exists result : SubmissionResult,
     status result = "pending" /\
     submittedAt result = clientNow /\
     c' = mkComponent (isOpen c) (Some result) false (showMediaViewer c)
            (Validation.mkData None None)).
Proof.
  intros l c'. subst l c'.
  submit_cases upload insert data.
  - left. exists [CallUpload f0]. eexists. split; [reflexivity | ].
    split; [intros m H; log_inversion | reflexivity].
  - right. split; [intros m H; log_inversion | ].
    eexists. split; [ | split; [ | reflexivity]]; reflexivity.
  - left. eexists [CallUpload f0; CallInsert _]. eexists. split; [reflexivity | ].
    split; [intros m H; log_inversion | reflexivity].
  - left. eexists [CallUpload f0; CallInsert _]. eexists. split; [reflexivity | ].
    split; [intros m H; log_inversion | reflexivity].
  - left. exists [CallUpload f0]. eexists. split; [reflexivity | ].
    split; [intros m H; log_inversion | reflexivity].
  - right. split; [intros m H; log_inversion | ].
    eexists. split; [ | split; [ | reflexivity]]; reflexivity.
  - left. eexists [CallInsert _]. eexists. split; [reflexivity | ].
    split; [intros m H; log_inversion | reflexivity].
  - left. eexists [CallInsert _]. eexists. split; [reflexivity | ].
    split; [intros m H; log_inversion | reflexivity].
Qed.

(** X19. One submission makes at least one call and never repeats one: it
    calls the upload at most once, the insert at most once and alerts at
    most once, so it has at most three effects; the upload is called
    exactly when the form holds a file. *)
Theorem submit_makes_each_call_at_most_once
  (upload : Validation.File -> Settled UploadResult)
  (insert : SupabaseActions.ProofSubmission -> Settled SupabaseActions.InsertResult)
  (clientNow : string) (data : Validation.AddProofFormData) (c : Component) :
  let l := fst (submit upload insert clientNow data c) in
  (List.length (filter isUploadCall l) <= 1)%nat /\
  (List.length (filter isInsertCall l) <= 1)%nat /\
  (List.length (filter isAlert l) <= 1)%nat /\
  (1 <= List.length l <= 3)%nat /\
  (forall f : Validation.File, In (CallUpload f) l <-> Validation.file data = Some f).
Proof.
  intros l. subst l.
  submit_cases upload insert data; simpl;
    (split; [lia | ]); (split; [lia | ]); (split; [lia | ]); (split; [lia | ]);
    intros f; split; intros H; log_inversion; try discriminate; auto;
    inversion H; auto.
Qed.

(** X20. What the success view shows is what was stored: when a submission
    sets a result, its link, file name, URL, size and type are the five
    fields of the one insert call, and its identifier is the one that call
    answered. *)
Theorem result_shows_what_was_inserted
  (upload : Validation.File -> Settled UploadResult)
  (insert : SupabaseActions.ProofSubmission -> Settled SupabaseActions.InsertResult)
  (clientNow : string) (data : Validation.AddProofFormData) (c : Component)
  (result : SubmissionResult) :
  submissionResult c = None ->
  submissionResult (snd (submit upload insert clientNow data c)) = Some result ->
  exists (p : SupabaseActions.ProofSubmission) (d : SupabaseActions.InsertResult),
    filter isInsertCall (fst (submit upload insert clientNow data c)) = [CallInsert p] /\
    insert p = Fulfilled d /\
    id result = SupabaseActions.id d /\
    proofLink result = SupabaseActions.proofLink p /\
    fileName result = SupabaseActions.fileName p /\
    fileUrl result = SupabaseActions.fileUrl p /\
    fileSize result = SupabaseActions.fileSize p /\
    fileType result = SupabaseActions.fileType p.
Proof.
  intros Hnone.
  submit_cases upload insert data; intros Hres; try congruence;
    inversion Hres; subst result; clear Hres; simpl;
    eexists; eexists; (split; [reflexivity | ]); (split; [eassumption | ]);
    repeat split.
Qed.

(** A photo and a link stored under the identifier 42. *)
Lemma result_shows_what_was_inserted_witness :
  let data := Validation.mkData (Some "https://example.com/x") (Some Scenario.photo) in
  let result :=
    mkSubmissionResult (Some 42) (Some "https://example.com/x") (Some "photo.png")
      (Some "https://cdn.example.com/proofs/1.png") (Some 204800) (Some "image/png")
      "t" "pending" in
  exists (p : SupabaseActions.ProofSubmission) (d : SupabaseActions.InsertResult),
    filter isInsertCall
      (fst (submit Scenario.uploadOk Scenario.insertOk "t" data Scenario.closedForm))
    = [CallInsert p] /\
    Scenario.insertOk p = Fulfilled d /\
    id result = SupabaseActions.id d /\
    proofLink result = SupabaseActions.proofLink p /\
    fileName result = SupabaseActions.fileName p /\
    fileUrl result = SupabaseActions.fileUrl p /\
    fileSize result = SupabaseActions.fileSize p /\
    fileType result = SupabaseActions.fileType p.
Proof.
  intros data result.
  apply (result_shows_what_was_inserted Scenario.uploadOk Scenario.insertOk "t" data
           Scenario.closedForm result); reflexivity.
Defined.

(** X21. A submission without a file never calls the upload: its first
    effect is the insert call, with the link and no file name, URL, size or
    type.  When it succeeds the result holds the link alone, the success
    view shows no View File button and the media viewer is not mounted. *)
Theorem link_only_submission_skips_upload
  (upload : Validation.File -> Settled UploadResult)
  (insert : SupabaseActions.ProofSubmission -> Settled SupabaseActions.InsertResult)
  (clientNow : string) (data : Validation.AddProofFormData) (c : Component) :
  Validation.file data = None ->
  let l := fst (submit upload insert clientNow data c) in
  let c' := snd (submit upload insert clientNow data c) in
  (forall f, ~ In (CallUpload f) l) /\
  (exists rest,
      l = CallInsert
            (SupabaseActions.mkProofSubmission (Validation.proofLink data) None None None None)
          :: rest) /\
  (forall result : SubmissionResult,
      submissionResult c = None ->
      submissionResult c' = Some result ->
      proofLink result = Validation.proofLink data /\
      fileName result = None /\ fileUrl result = None /\
      fileSize result = None /\ fileType result = None /\
      viewFileShown result = false /\
      mediaViewer c' = None).
Proof.
  intros Hf l c'. subst l c'.
  rewrite submit_unfold. cbv zeta. rewrite Hf. simpl.
  match goal with |- context [insert ?p] => destruct (insert p) as [d | e] end;
    [destruct (SupabaseActions.success d) | ]; simpl;
    (split; [intros f H; log_inversion | ]);
    (split; [eexists; reflexivity | ]);
    intros result Hnone Hres; try congruence.
  inversion Hres; subst result. repeat split.
Qed.

(** A link alone against collaborators that succeed. *)
Lemma link_only_submission_skips_upload_witness :
  let data := Validation.mkData (Some "https://example.com/x") None in
  exists rest,
    fst (submit Scenario.uploadOk Scenario.insertOk "t" data Scenario.closedForm)
    = CallInsert
        (SupabaseActions.mkProofSubmission (Some "https://example.com/x") None None None None)
      :: rest.
Proof.
  intros data.
  apply (link_only_submission_skips_upload Scenario.uploadOk Scenario.insertOk "t" data
           Scenario.closedForm).
  reflexivity.
Defined.

Lemma startsWith_nonempty (s p : string) :
  p <> "" -> startsWith s p = true -> orElse (Some s) "application/octet-stream" = s.
Proof.
  unfold startsWith. destruct s as [ | c s]; [ | reflexivity].
  destruct p; [congruence | discriminate].
Qed.

(** X22. After a successful submission of a file that passed the check of
    the schema, the media viewer is mounted exactly when the upload
    answered a non-empty URL; it is then given that URL, the size and the
    mime type of the file, and, as the type starts with "image/" or
    "video/", it shows the file as an image or as a video, never the
    "preview not available" fallback. *)
Theorem checked_upload_is_viewed_as_image_or_video
  (upload : Validation.File -> Settled UploadResult)
  (insert : SupabaseActions.ProofSubmission -> Settled SupabaseActions.InsertResult)
  (clientNow : string) (data : Validation.AddProofFormData) (c : Component)
  (f : Validation.File) (u : UploadResult) (result : SubmissionResult) :
  Validation.file data = Some f ->
  Validation.fileCheck data = true ->
  upload f = Fulfilled u ->
  submissionResult c = None ->
  submissionResult (snd (submit upload insert clientNow data c)) = Some result ->
  (mediaViewer (snd (submit upload insert clientNow data c)) = None <-> url u = "") /\
  (forall props : MediaViewerProps.t,
      mediaViewer (snd (submit upload insert clientNow data c)) = Some props ->
      MediaViewerProps.fileUrl props = url u /\
      MediaViewerProps.fileType props = Validation.type f /\
      MediaViewerProps.fileSize props = Some (Validation.size f) /\
      MediaViewerProps.isOpen props = showMediaViewer c /\
      MediaViewer.isImage (MediaViewerProps.fileType props) = Validation.isImageFile f /\
      MediaViewer.isVideo (MediaViewerProps.fileType props) = Validation.isVideoFile f /\
      MediaViewer.isImage (MediaViewerProps.fileType props)
      || MediaViewer.isVideo (MediaViewerProps.fileType props) = true).
Proof.
  intros Hf Hcheck Hu Hnone.
  assert (Hmedia : startsWith (Validation.type f) "image/"
                   || startsWith (Validation.type f) "video/" = true).
  { unfold Validation.fileCheck in Hcheck. rewrite Hf in Hcheck.
    destruct (startsWith (Validation.type f) "image/");
      destruct (startsWith (Validation.type f) "video/"); simpl in *; congruence. }
  assert (Htype : orElse (Some (Validation.type f)) "application/octet-stream"
                  = Validation.type f).
  { apply orb_true_iff in Hmedia.
    destruct Hmedia as [H | H]; apply (startsWith_nonempty _ _) in H; auto; discriminate. }
  rewrite submit_unfold. cbv zeta. rewrite Hf, Hu. simpl.
  destruct (truthy (error u)); simpl; [congruence | ].
  match goal with |- context [insert ?p] => destruct (insert p) as [d | e] end;
    [destruct (SupabaseActions.success d) | ]; simpl; try congruence.
  intros _. unfold mediaViewer. simpl.
  destruct (url u) as [ | a rest]; simpl.
  - split; [tauto | intros props H; discriminate H].
  - split; [split; discriminate | ].
    intros props H. inversion H; subst props; simpl. simpl in Htype. rewrite Htype.
    repeat split. exact Hmedia.
Qed.

(** The photo of the sample form, stored and then viewed as an image. *)
Lemma checked_upload_is_viewed_as_image_or_video_witness :
  let props :=
    MediaViewerProps.make false "https://cdn.example.com/proofs/1.png" "photo.png"
      "image/png" (Some 204800) in
  MediaViewerProps.fileType props = Validation.type Scenario.photo /\
  MediaViewer.isImage (MediaViewerProps.fileType props) = Validation.isImageFile Scenario.photo.
Proof.
  intros props.
  pose (data := Validation.mkData (Some "https://example.com/x") (Some Scenario.photo)).
  destruct (checked_upload_is_viewed_as_image_or_video
              Scenario.uploadOk Scenario.insertOk "t" data Scenario.closedForm
              Scenario.photo
              (mkUploadResult "https://cdn.example.com/proofs/1.png" None)
              (mkSubmissionResult (Some 42) (Some "https://example.com/x") (Some "photo.png")
                 (Some "https://cdn.example.com/proofs/1.png") (Some 204800) (Some "image/png")
                 "t" "pending")
              eq_refl eq_refl eq_refl eq_refl eq_refl) as [_ H].
  destruct (H props eq_refl) as (_ & Ht & _ & _ & Hi & _).
  split; [exact Ht | exact Hi].
Defined.

(** X23. With a file whose upload call answered, the insert is called
    exactly when the error field of the answer is absent or the empty
    string: the handler tests that field by truthiness.  The insert is then
    given the answered URL, whatever it is. *)
Theorem insert_follows_upload_iff_error_field_falsy
  (upload : Validation.File -> Settled UploadResult)
  (insert : SupabaseActions.ProofSubmission -> Settled SupabaseActions.InsertResult)
  (clientNow : string) (data : Validation.AddProofFormData) (c : Component)
  (f : Validation.File) (u : UploadResult) :
  Validation.file data = Some f ->
  upload f = Fulfilled u ->
  ((exists p, In (CallInsert p) (fst (submit upload insert clientNow data c))) <->
   error u = None \/ error u = Some "") /\
  (error u = None \/ error u = Some "" ->
   In (CallInsert
         (SupabaseActions.mkProofSubmission (Validation.proofLink data)
            (Some (Validation.name f)) (Some (url u))
            (Some (Validation.size f)) (Some (Validation.type f))))
      (fst (submit upload insert clientNow data c))).
Proof.
  intros Hf Hu.
  rewrite <- ValidationFacts.truthy_false.
  rewrite submit_unfold. cbv zeta. rewrite Hf, Hu. simpl.
  destruct (truthy (error u)); simpl.
  - split; [ | discriminate].
    split; [intros (p & H); log_inversion | discriminate].
  - match goal with |- context [insert ?p] => destruct (insert p) as [d | e] end;
      [destruct (SupabaseActions.success d) | ]; simpl;
      (split; [split; [reflexivity | intros _; eexists] | intros _]);
      right; left; reflexivity.
Qed.

(** An upload that answers an empty error string and an empty URL is
    followed by the insert, with the empty URL. *)
Lemma insert_follows_upload_iff_error_field_falsy_witness :
  let data := Validation.mkData None (Some Scenario.photo) in
  let silent := fun _ : Validation.File => Fulfilled (mkUploadResult "" (Some "")) in
  In (CallInsert
        (SupabaseActions.mkProofSubmission None (Some "photo.png") (Some "")
           (Some 204800) (Some "image/png")))
     (fst (submit silent Scenario.insertOk "t" data Scenario.closedForm)).
Proof.
  intros data silent.
  apply (proj2 (insert_follows_upload_iff_error_field_falsy silent Scenario.insertOk "t" data
                  Scenario.closedForm Scenario.photo (mkUploadResult "" (Some ""))
                  eq_refl eq_refl)).
  right. reflexivity.
Defined.

End SubmissionFormMoreFacts.

(** ** The two back-end adapters, alone and under the pipeline *)

Module BackendFacts.

Import JS.
Import SupabaseClient.
Import SubmissionForm.
Import SubmissionFormFacts.

(** X24. The answer of the record insert is always well formed: it reports
    success exactly when the database answered a row identifier and no
    error, and then carries that identifier and no error message; otherwise
    it carries no identifier and an error message, the one of the database
    when it answered one, and "Failed to save proof record" when the query
    threw or answered neither row nor error.  The action itself never
    throws. *)
Theorem insert_answer_is_well_formed (serverNow : string)
  (runInsert : SupabaseActions.ProofRow -> Settled SupabaseActions.QueryResponse)
  (proofData : SupabaseActions.ProofSubmission) :
  let answered := runInsert (SupabaseActions.insertedRow serverNow proofData) in
  let r := SupabaseActions.insertProofRecord serverNow runInsert proofData in
  (SupabaseActions.success r = true <->
   exists rowId, answered = Fulfilled (SupabaseActions.mkQueryResponse (Some rowId) None)) /\
  (forall rowId,
      answered = Fulfilled (SupabaseActions.mkQueryResponse (Some rowId) None) ->
      r = SupabaseActions.mkInsertResult true None (Some rowId)) /\
  (forall rowData message,
      answered = Fulfilled (SupabaseActions.mkQueryResponse rowData (Some message)) ->
      r = SupabaseActions.mkInsertResult false (Some message) None) /\
  (answered = Fulfilled (SupabaseActions.mkQueryResponse None None) \/
   (exists e, answered = Rejected e) ->
   r = SupabaseActions.mkInsertResult false (Some "Failed to save proof record") None) /\
  (SupabaseActions.success r = false ->
   SupabaseActions.id r = None /\ exists message, SupabaseActions.error r = Some message).
Proof.
  intros answered r. subst answered r. unfold SupabaseActions.insertProofRecord.
  destruct (runInsert (SupabaseActions.insertedRow serverNow proofData))
    as [[[rowId | ] [message | ]] | e]; simpl.
  all: split; [split; [intros H; try discriminate H; eauto
                      | intros (i & H); try discriminate H; try reflexivity] | ].
  all: split; [intros i H; inversion H; reflexivity | ].
  all: split; [intros rd m H; inversion H; reflexivity | ].
  all: split; [intros [H | (e' & H)]; try discriminate H; reflexivity | ].
  all: try (intros H; discriminate H).
  all: intros _; split; [reflexivity | eauto].
Qed.

(** X25. Under the pipeline with the server action as its insert: an
    error answered by the database ends the submission with the alert
    "Database error: " followed by the database's message, whatever that
    message is; a query that throws, or answers neither row nor error, ends
    it with "Database error: Failed to save proof record", so the message of
    the exception is not shown; in both cases no result is set.  A row
    identifier answered without error becomes the identifier of the
    result. *)
Theorem database_failure_is_alerted
  (upload : Validation.File -> Settled UploadResult)
  (runInsert : SupabaseActions.ProofRow -> Settled SupabaseActions.QueryResponse)
  (clientNow serverNow : string) (data : Validation.AddProofFormData) (c : Component)
  (p : SupabaseActions.ProofSubmission) :
  let run := submit upload (insertViaServerAction serverNow runInsert) clientNow data c in
  let answered := runInsert (SupabaseActions.insertedRow serverNow p) in
  In (CallInsert p) (fst run) ->
  (forall rowData message,
      answered = Fulfilled (SupabaseActions.mkQueryResponse rowData (Some message)) ->
      (exists pre, fst run = pre ++ [CallInsert p; Alert ("Database error: " ++ message)%string]) /\
      submissionResult (snd run) = submissionResult c) /\
  (answered = Fulfilled (SupabaseActions.mkQueryResponse None None) \/
   (exists e, answered = Rejected e) ->
   (exists pre,
       fst run = pre ++ [CallInsert p; Alert "Database error: Failed to save proof record"]) /\
   submissionResult (snd run) = submissionResult c) /\
  (forall rowId,
      answered = Fulfilled (SupabaseActions.mkQueryResponse (Some rowId) None) ->
      exists result,
        submissionResult (snd run) = Some result /\ id result = Some rowId).
Proof.
  intros run answered Hin. subst run answered.
  pose proof (insert_error_aborts upload (insertViaServerAction serverNow runInsert)
                clientNow data c p Hin) as [Hfail _].
  split; [ | split].
  - intros rowData message Ha.
    apply (Hfail (SupabaseActions.mkInsertResult false (Some message) None)); [ | reflexivity].
    unfold insertViaServerAction, SupabaseActions.insertProofRecord. now rewrite Ha.
  - intros Ha.
    apply (Hfail (SupabaseActions.mkInsertResult false
                    (Some "Failed to save proof record") None)); [ | reflexivity].
    unfold insertViaServerAction, SupabaseActions.insertProofRecord.
    destruct Ha as [Ha | (e & Ha)]; now rewrite Ha.
  - intros rowId Ha.
    destruct (success_creates_result upload (insertViaServerAction serverNow runInsert)
                clientNow data c p
                (SupabaseActions.mkInsertResult true None (Some rowId)) Hin)
      as (result & Hr & _ & Hid & _); [ | reflexivity | eauto].
    unfold insertViaServerAction, SupabaseActions.insertProofRecord. now rewrite Ha.
Qed.

(** A link alone, stored in a database that answers "duplicate key". *)
Lemma database_failure_is_alerted_witness :
  let data := Validation.mkData (Some "https://example.com/x") None in
  let refuse := fun _ : SupabaseActions.ProofRow =>
    Fulfilled (SupabaseActions.mkQueryResponse None (Some "duplicate key")) in
  let p := SupabaseActions.mkProofSubmission (Some "https://example.com/x")
             None None None None in
  exists pre,
    fst (submit Scenario.uploadOk (insertViaServerAction "09:01" refuse) "09:00" data
           Scenario.closedForm)
    = pre ++ [CallInsert p; Alert "Database error: duplicate key"].
Proof.
  intros data refuse p.
  pose proof (database_failure_is_alerted Scenario.uploadOk refuse "09:00" "09:01" data
                Scenario.closedForm p) as H.
  cbv zeta in H.
  destruct H as (H & _ & _).
  - vm_compute. left. reflexivity.
  - destruct (H None "duplicate key" eq_refl) as [Hl _]. exact Hl.
Defined.

(** X26. The upload of [lib/supabase-client] never throws: it answers an
    error exactly when the storage call did not succeed, and then an empty
    URL.  Under the pipeline, a storage error with a non-empty message ends
    the submission, before any insert, with the alert "File upload failed: "
    followed by that message; a storage call that throws ends it with
    "File upload failed: Failed to upload file", so the message of the
    exception is not shown; and after a storage call that succeeds the
    insert is given the public URL of the path the file was stored under. *)
Theorem storage_failure_stops_submission
  (filePath : Validation.File -> string)
  (storageUpload : string -> Validation.File -> Settled (option string))
  (getPublicUrl : string -> string)
  (insert : SupabaseActions.ProofSubmission -> Settled SupabaseActions.InsertResult)
  (clientNow : string) (data : Validation.AddProofFormData) (c : Component)
  (f : Validation.File) :
  Validation.file data = Some f ->
  let up := uploadFileToSupabase filePath storageUpload getPublicUrl in
  let l := fst (submit up insert clientNow data c) in
  (exists u, up f = Fulfilled u /\
             (error u = None <-> storageUpload (filePath f) f = Fulfilled None) /\
             (error u <> None -> url u = "")) /\
  (forall msg, storageUpload (filePath f) f = Fulfilled (Some msg) -> msg <> "" ->
     l = [CallUpload f; Alert ("File upload failed: " ++ msg)%string]) /\
  (forall e, storageUpload (filePath f) f = Rejected e ->
     l = [CallUpload f; Alert "File upload failed: Failed to upload file"]) /\
  (storageUpload (filePath f) f = Fulfilled None ->
   In (CallInsert
         (SupabaseActions.mkProofSubmission (Validation.proofLink data)
            (Some (Validation.name f)) (Some (getPublicUrl (filePath f)))
            (Some (Validation.size f)) (Some (Validation.type f)))) l).
Proof.
  intros Hf up l. subst up l.
  split; [ | split; [ | split]].
  - eexists. split; [reflexivity | ].
    destruct (storageUpload (filePath f) f) as [[msg | ] | e]; simpl;
      split; try (split; [discriminate | intros H; discriminate H]);
      try reflexivity; try tauto.
    all: intros H; exfalso; apply H; reflexivity.
  - intros msg Hs Hne. now apply storage_error_aborts.
  - intros e Hs. now apply (storage_exception_aborts _ _ _ _ _ _ _ _ e).
  - intros Hs. rewrite submit_unfold. cbv zeta. rewrite Hf.
    unfold uploadFileToSupabase. rewrite Hs. simpl.
    match goal with |- context [insert ?p] => destruct (insert p) as [d | e] end;
      [destruct (SupabaseActions.success d) | ]; simpl; right; left; reflexivity.
Qed.

(** The storage service is unreachable: the fixed text is alerted. *)
Lemma storage_failure_stops_submission_witness :
  let data := Validation.mkData None (Some Scenario.photo) in
  let offline := fun (_ : string) (_ : Validation.File) =>
    @Rejected (option string) (ErrorObject "ECONNREFUSED") in
  fst (submit (uploadFileToSupabase (fun _ => "proofs/1.png") offline (fun path => path))
         Scenario.insertOk "t" data Scenario.closedForm)
  = [CallUpload Scenario.photo; Alert "File upload failed: Failed to upload file"].
Proof.
  intros data offline.
  pose proof (storage_failure_stops_submission (fun _ => "proofs/1.png") offline
                (fun path => path) Scenario.insertOk "t" data Scenario.closedForm
                Scenario.photo eq_refl) as H.
  cbv zeta in H. destruct H as (_ & _ & H & _).
  apply (H (ErrorObject "ECONNREFUSED")). reflexivity.
Defined.

End BackendFacts.
